(** * The product API of [server.js], embedded in Rocq

    The Express application of [server.js] keeps a list of product records
    in memory and serves it over seven routes.  This file embeds the data
    (JavaScript values, the product record, the failure objects), the
    middlewares ([authenticate], [validateProduct], the final error
    handler), the seven route handlers and the order in which the router
    tries them, and then proves what the handlers do.

    Conventions of the embedding:
    - a JavaScript value read from a JSON body is a [value]; a property
      that is absent reads as [VUndefined];
    - a header is an [option string] ([None] when the request does not
      carry it); a query parameter is an [option param]: a string, or the
      array or object Express makes of a repeated or bracketed parameter;
    - a request as it arrives is a [Raw.t], whose body is what
      [bodyParser.json()] makes of it, a parsed body or the parser's
      failure; [serve] is the whole stack on such a request, [app] the
      logger and the router on a request whose body has parsed;
    - [String.prototype.toLowerCase] and the conversion of a number to a
      string are parameters of the server: the statements hold whatever
      the runtime computes there;
    - the integers computed by [parseInt] and the pagination arithmetic are
      in [Z], which is what the program computes in doubles on safe integers
      ([safe_integer]);
    - a handler is a computation over the store that returns a response or
      throws a failure object ([M]). *)

From Stdlib Require Import ZArith QArith Ascii String List Lia.
From stdpp Require Import gmap strings list.

Local Open Scope string_scope.
Local Open Scope list_scope.
Local Open Scope Z_scope.
Set Warnings "-register-all".

(** ** JavaScript values and the built-ins the server calls *)

Module JS.

(** A number: the two infinities, NaN, or a finite double given by its
    rational value.  Only the sign of a number and whether it is zero are
    ever inspected by the server. *)
Inductive number :=
| NaN
| Infinity (negative : bool)
| Fin (q : Q).

Inductive value :=
| VUndefined
| VNull
| VBool (b : bool)
| VNum (n : number)
| VStr (s : string)
| VArr (items : list value)
| VObj (fields : list (string * value)).

Definition num (z : Z) : value := VNum (Fin (inject_Z z)).

Definition number_is_zero (n : number) : bool :=
  match n with
  | Fin q => Qeq_bool q 0
  | _ => false
  end.

(** [n <= 0] *)
Definition number_le0 (n : number) : bool :=
  match n with
  | NaN => false
  | Infinity negative => negative
  | Fin q => Qle_bool q 0
  end.

(** [n > 0] *)
Definition number_gt0 (n : number) : bool :=
  match n with
  | NaN => false
  | Infinity negative => negb negative
  | Fin q => negb (Qle_bool q 0)
  end.

(** ToBoolean: [undefined], [null], [false], [0], [NaN] and [""] are
    falsy, everything else is truthy. *)
Definition truthy (v : value) : bool :=
  match v with
  | VUndefined | VNull => false
  | VBool b => b
  | VNum NaN => false
  | VNum n => negb (number_is_zero n)
  | VStr s => negb (String.eqb s "")
  | VArr _ | VObj _ => true
  end.

(** [a || b] *)
Definition or (a b : value) : value := if truthy a then a else b.

(** [typeof v === 'number'] *)
Definition typeof_number (v : value) : bool :=
  match v with VNum _ => true | _ => false end.

(** [v <= 0] for a [v] whose [typeof] is ['number']. *)
Definition le0 (v : value) : bool :=
  match v with VNum n => number_le0 n | _ => false end.

(** [v === s] for a string [s]: no conversion takes place. *)
Definition strict_eq_string (v : value) (s : string) : bool :=
  match v with VStr t => String.eqb t s | _ => false end.

(** Truthiness of a header: a string that is present and not empty. *)
Definition truthy_param (o : option string) : bool :=
  match o with
  | Some s => negb (String.eqb s "")
  | None => false
  end.

(** A query parameter as the query parser hands it over: a string, or, for
    a parameter that is repeated or written with brackets, an array or an
    object of parameters. *)
Inductive param :=
| PStr (s : string)
| PArr (items : list param)
| PObj (fields : list (string * param)).

Coercion PStr : string >-> param.

(** A string written where a parameter is expected, as in [Some "2"], is
    read as that parameter. *)
Arguments Some {A} & a.

(** Truthiness of a query parameter: an absent parameter and the empty
    string are falsy, arrays and objects are truthy. *)
Definition truthy_query (o : option param) : bool :=
  match o with
  | Some (PStr s) => negb (String.eqb s "")
  | Some _ => true
  | None => false
  end.

(** [v === x] for a query parameter [x]: true only of two equal strings
    (an array or object of the query is no stored value). *)
Definition strict_eq_param (v : value) (x : param) : bool :=
  match x with
  | PStr s => strict_eq_string v s
  | _ => false
  end.

(** ToString of a query parameter: an array joins its elements with
    commas. *)
Fixpoint param_to_string (x : param) : string :=
  match x with
  | PStr s => s
  | PArr items =>
      (fix join (l : list param) : string :=
         match l with
         | [] => ""
         | y :: rest =>
             match rest with
             | [] => param_to_string y
             | _ => param_to_string y +:+ "," +:+ join rest
             end
         end) items
  | PObj _ => "[object Object]"
  end.

(** *** Strings *)

Definition lower_ascii (c : ascii) : ascii :=
  let n := nat_of_ascii c in
  if ((65 <=? n)%nat && (n <=? 90)%nat)%bool then ascii_of_nat (n + 32) else c.

(** The case folding under which the router compares a literal segment of
    a route path with a segment of the request path: the path is compiled
    to a regular expression with the [i] flag, and the letters of the
    literals are ASCII, so a letter A-Z is compared as a-z and every other
    character as itself. *)
Fixpoint fold_case (s : string) : string :=
  match s with
  | EmptyString => EmptyString
  | String c t => String (lower_ascii c) (fold_case t)
  end.

(** [s.includes(needle)] *)
Fixpoint includes (s needle : string) : bool :=
  (String.prefix needle s ||
   match s with
   | EmptyString => false
   | String _ t => includes t needle
   end)%bool.

(** *** parseInt *)

Definition is_white_space (c : ascii) : bool :=
  let n := nat_of_ascii c in
  ((n =? 32)%nat || ((9 <=? n)%nat && (n <=? 13)%nat))%bool.

(** Strings are sequences of bytes (UTF-8).  The white space of the
    language outside ASCII: U+00A0 in two bytes; U+1680, U+2000 to U+200A,
    U+2028, U+2029, U+202F, U+205F, U+3000 and U+FEFF in three. *)
Definition white_space2 (c1 c2 : ascii) : bool :=
  ((nat_of_ascii c1 =? 194)%nat && (nat_of_ascii c2 =? 160)%nat)%bool.

Definition white_space3 (c1 c2 c3 : ascii) : bool :=
  let n1 := nat_of_ascii c1 in
  let n2 := nat_of_ascii c2 in
  let n3 := nat_of_ascii c3 in
  (((n1 =? 225) && (n2 =? 154) && (n3 =? 128)) ||
   ((n1 =? 226) && (n2 =? 128) &&
    (((128 <=? n3) && (n3 <=? 138)) || (n3 =? 168) || (n3 =? 169) || (n3 =? 175))) ||
   ((n1 =? 226) && (n2 =? 129) && (n3 =? 159)) ||
   ((n1 =? 227) && (n2 =? 128) && (n3 =? 128)) ||
   ((n1 =? 239) && (n2 =? 187) && (n3 =? 191)))%nat%bool.

(** The string without its leading white space. *)
Fixpoint trim_start (s : string) : string :=
  match s with
  | String c t =>
      if is_white_space c then trim_start t
      else if (nat_of_ascii c <? 128)%nat then s
      else
        match t with
        | String c2 t2 =>
            if white_space2 c c2 then trim_start t2
            else
              match t2 with
              | String c3 t3 => if white_space3 c c2 c3 then trim_start t3 else s
              | EmptyString => s
              end
        | EmptyString => s
        end
  | EmptyString => EmptyString
  end.

Definition digit_value (c : ascii) : option Z :=
  let n := Z.of_nat (nat_of_ascii c) in
  if (48 <=? n) && (n <=? 57) then Some (n - 48)
  else if (97 <=? n) && (n <=? 122) then Some (n - 87)
  else if (65 <=? n) && (n <=? 90) then Some (n - 55)
  else None.

(** The longest prefix of [s] made of digits of the radix, as a number;
    [acc] is [None] until a digit has been read. *)
Fixpoint read_digits (radix : Z) (s : string) (acc : option Z) : option Z :=
  match s with
  | String c t =>
      match digit_value c with
      | Some d =>
          if d <? radix
          then read_digits radix t (Some (default 0 acc * radix + d))
          else acc
      | None => acc
      end
  | EmptyString => acc
  end.

(** [parseInt(x)] with no radix argument, for a query parameter [x]: the
    integer the digits denote, [None] for NaN.  An absent parameter is
    [undefined], which converts to the string "undefined".  The program
    holds the result in a double, which is this integer as long as its
    magnitude is below 2^53; beyond that the double is a rounding of it
    (infinite from 2^1024 on), and the statements that depend on a parsed
    number carry that bound. *)
Definition parseInt (x : option param) : option Z :=
  let inputString :=
    match x with
    | Some p => param_to_string p
    | None => "undefined"
    end in
  let str := trim_start inputString in
  let '(sign, str) :=
    match str with
    | String "-" t => (-1, t)
    | String "+" t => (1, t)
    | _ => (1, str)
    end in
  let '(R, str) :=
    match str with
    | String "0" (String "x" t) => (16, t)
    | String "0" (String "X" t) => (16, t)
    | _ => (10, str)
    end in
  match read_digits R str None with
  | Some n => Some (sign * n)
  | None => None
  end.

(** [parseInt(x) || d]: NaN and (either) zero are falsy. *)
Definition parseInt_or (x : option param) (d : Z) : Z :=
  match parseInt x with
  | Some n => if n =? 0 then d else n
  | None => d
  end.

(** *** Arrays *)

(** A relative index of [Array.prototype.slice]: a negative index counts
    from the end, and both ends are clamped to the array. *)
Definition relative_index (len i : Z) : Z :=
  if i <? 0 then Z.max (len + i) 0 else Z.min i len.

(** [l.slice(startIndex, endIndex)] *)
Definition slice {A} (l : list A) (startIndex endIndex : Z) : list A :=
  let len := Z.of_nat (length l) in
  let k := relative_index len startIndex in
  let final := relative_index len endIndex in
  firstn (Z.to_nat (Z.max (final - k) 0)) (skipn (Z.to_nat k) l).

(** [Math.ceil(a / b)] for integers [a] and [b <> 0]. *)
Definition ceil_div (a b : Z) : Z := - ((- a) / b).

End JS.

Import JS.

(** ** Records, requests, responses and failures *)

(** A stored product.  [id] is always a string (a seed id or a generated
    one); the other fields hold whatever value the request body carried. *)
Module Product.
Record t := mk {
  id : string;
  name : value;
  description : value;
  price : value;
  category : value;
  inStock : value
}.
End Product.

(** The five properties a handler reads from [req.body]. *)
Module Body.
Record t := mk {
  name : value;
  description : value;
  price : value;
  category : value;
  inStock : value
}.
End Body.

(** [req.query]: a parameter the request does not carry is [None]. *)
Module Query.
Record t := mk {
  category : option param;
  search : option param;
  page : option param;
  limit : option param
}.
Definition empty : t := mk None None None None.
End Query.

Inductive http_method := GET | POST | PUT | DELETE | OTHER.

(** A request.  [path] is the request path split at its slashes, without
    empty segments; [x_api_key] is [req.headers['x-api-key']]. *)
Module Req.
Record t := mk {
  method : http_method;
  path : list string;
  x_api_key : option string;
  query : Query.t;
  body : Body.t
}.
End Req.

(** A failure object: the three properties the error handler reads. *)
Module Failure.
Record t := mk {
  message : value;
  name : value;
  statusCode : value
}.
End Failure.

Definition NotFoundError (message : string) : Failure.t :=
  Failure.mk (VStr message) (VStr "NotFoundError") (num 404).

Definition ValidationError (message : string) : Failure.t :=
  Failure.mk (VStr message) (VStr "ValidationError") (num 400).

Definition UnauthorizedError (message : string) : Failure.t :=
  Failure.mk (VStr message) (VStr "UnauthorizedError") (num 401).

(** The failure the runtime raises when a method is called on a value
    that does not have it.  It carries no [statusCode]. *)
Definition TypeError (message : string) : Failure.t :=
  Failure.mk (VStr message) (VStr "TypeError") VUndefined.

(** What a handler sends. *)
Inductive payload :=
| SendText (text : string)
| SendEmpty
| JsonProduct (p : Product.t)
| JsonPage (total page totalPages : Z) (data : list Product.t)
| JsonStats (totalProducts : nat) (categories : gmap string nat)
            (inStock outOfStock : nat)
| JsonError (message type : value)
| FinalHandler.

Record response := mk_response {
  status : value;
  sent : payload
}.

(** ** Computations over the store

    A handler reads and writes the module-level [products] array and may
    throw.  [M A] is such a computation: from the store it yields either
    a result or the failure thrown, and the store it leaves. *)

Inductive outcome (A : Type) :=
| Returned (a : A)
| Thrown (e : Failure.t).
Arguments Returned {A} a.
Arguments Thrown {A} e.

(** A request as it arrives.  [body] is what [bodyParser.json()] makes of
    the body: the parsed JSON object (the empty object when the request
    carries no JSON body, so that every property reads as [undefined]), or
    the failure the parser raises. *)
Module Raw.
Record t := mk {
  method : http_method;
  path : list string;
  x_api_key : option string;
  query : Query.t;
  body : outcome Body.t
}.

(** The request the later middlewares and the routes see, once the body is
    parsed. *)
Definition request (raw : t) (b : Body.t) : Req.t :=
  Req.mk (method raw) (path raw) (x_api_key raw) (query raw) b.
End Raw.

(** The failure [bodyParser.json()] raises on a body that is not valid
    JSON: the SyntaxError of the JSON parser, given the status 400. *)
Definition SyntaxError (message : string) : Failure.t :=
  Failure.mk (VStr message) (VStr "SyntaxError") (num 400).

Definition M (A : Type) : Type :=
  list Product.t -> outcome A * list Product.t.

Definition ret {A} (a : A) : M A := fun products => (Returned a, products).

Definition throw {A} (e : Failure.t) : M A := fun products => (Thrown e, products).

Definition bind {A B} (m : M A) (k : A -> M B) : M B :=
  fun products =>
    match m products with
    | (Returned a, products') => k a products'
    | (Thrown e, products') => (Thrown e, products')
    end.

Definition read_products : M (list Product.t) :=
  fun products => (Returned products, products).

Definition write_products (products' : list Product.t) : M unit :=
  fun _ => (Returned tt, products').

Definition lift {A} (o : outcome A) : M A := fun products => (o, products).

Notation "'let*' x ':=' m 'in' k" := (bind m (fun x => k))
  (at level 10, x name, m at level 100, k at level 200).
Notation "m ';;' k" := (bind m (fun _ => k))
  (at level 100, k at level 200, right associativity).

(** [l.filter(f)] for a callback that may throw: the first failure aborts
    the scan. *)
Fixpoint filter_throwing {A} (f : A -> outcome bool) (l : list A) : outcome (list A) :=
  match l with
  | [] => Returned []
  | x :: rest =>
      match f x with
      | Thrown e => Thrown e
      | Returned keep =>
          match filter_throwing f rest with
          | Thrown e => Thrown e
          | Returned kept => Returned (if keep then x :: kept else kept)
          end
      end
  end.

(** ** Routing

    A route path is a list of segments; [:id] is a parameter that takes
    one non-empty segment of the request path.  Matching is Express's
    default: literal segments compare without regard to letter case, and
    the whole path has to be consumed. *)

Inductive segment :=
| Lit (s : string)
| Param (name : string).

Definition params := list (string * string).

Fixpoint match_path (pattern : list segment) (path : list string) : option params :=
  match pattern, path with
  | [], [] => Some []
  | Lit s :: pattern', seg :: path' =>
      if String.eqb (fold_case s) (fold_case seg)
      then match_path pattern' path'
      else None
  | Param name :: pattern', seg :: path' =>
      if String.eqb seg "" then None
      else match match_path pattern' path' with
           | Some ps => Some ((name, seg) :: ps)
           | None => None
           end
  | _, _ => None
  end.

(** [req.params.id] *)
Fixpoint params_id (ps : params) : option string :=
  match ps with
  | [] => None
  | (k, v) :: rest => if String.eqb k "id" then Some v else params_id rest
  end.

(** What a middleware or handler does when it does not throw: it calls
    [next()] or it sends the response. *)
Inductive step :=
| Next
| Send (r : response).

Definition layer : Type := Req.t -> params -> M step.

Record route := mk_route {
  route_method : http_method;
  route_path : list segment;
  route_chain : list layer
}.

Definition method_eqb (a b : http_method) : bool :=
  match a, b with
  | GET, GET | POST, POST | PUT, PUT | DELETE, DELETE | OTHER, OTHER => true
  | _, _ => false
  end.

Definition route_match (r : route) (req : Req.t) : option params :=
  if method_eqb (route_method r) (Req.method req)
  then match_path (route_path r) (Req.path req)
  else None.

(** The functions of one route run in order until one of them sends. *)
Fixpoint run_chain (chain : list layer) (req : Req.t) (ps : params) : M step :=
  match chain with
  | [] => ret Next
  | h :: rest =>
      let* s := h req ps in
      match s with
      | Next => run_chain rest req ps
      | Send r => ret (Send r)
      end
  end.

(** The router tries the routes in the order of their registration; a
    route that matches and sends ends the search. *)
Fixpoint dispatch (routes : list route) (req : Req.t) : M step :=
  match routes with
  | [] => ret Next
  | r :: rest =>
      match route_match r req with
      | Some ps =>
          let* s := run_chain (route_chain r) req ps in
          match s with
          | Next => dispatch rest req
          | Send x => ret (Send x)
          end
      | None => dispatch rest req
      end
  end.

(** ** The server *)

(** The in-memory database at start-up.  999.99 and 199.99 are written as
    the rationals 99999/100 and 19999/100. *)
Definition laptop : Product.t :=
  Product.mk "1" (VStr "Laptop") (VStr "High-performance laptop")
    (VNum (Fin (99999 # 100))) (VStr "Electronics") (VBool true).

Definition desk_chair : Product.t :=
  Product.mk "2" (VStr "Desk Chair") (VStr "Ergonomic office chair")
    (VNum (Fin (19999 # 100))) (VStr "Furniture") (VBool true).

Definition products : list Product.t := [laptop; desk_chair].

(** [res.status(code).json(p)]; the status is 200 when the handler sets
    none. *)
Definition json (code : Z) (p : payload) : response := mk_response (num code) p.

(** [res.status(code).send(p)] *)
Definition send (code : Z) (p : payload) : response := mk_response (num code) p.

Section Server.

(** [process.env.API_KEY]: [None] when the variable is not set. *)
Variable API_KEY : option string.

(** Number-to-string conversion of the runtime (used only when a number
    serves as a property key). *)
Variable Number_toString : number -> string.

(** [String.prototype.toLowerCase], the lowercasing of the runtime (of
    every letter that has a lower case, not only of A-Z). *)
Variable toLowerCase : string -> string.

(** The logger writes a line to the console and calls [next()]. *)
Definition logger : layer := fun req ps => ret Next.

Definition authenticate : layer := fun req ps =>
  let apiKey := Req.x_api_key req in
  if negb (truthy_param apiKey) || bool_decide (apiKey <> API_KEY)
  then throw (UnauthorizedError "Invalid API key")
  else ret Next.

Definition validateProduct : layer := fun req ps =>
  let product := Req.body req in
  if negb (truthy (Body.name product)) || negb (truthy (Body.price product))
  then throw (ValidationError "Name and price are required")
  else if negb (typeof_number (Body.price product)) || le0 (Body.price product)
  then throw (ValidationError "Price must be a positive number")
  else ret Next.

(** [app.get('/')] *)
Definition hello : layer := fun req ps =>
  ret (Send (send 200 (SendText "Hello World!"))).

(** [v.toLowerCase()] for a stored value [v], where [expr] is the source
    text of [v]: a string has the method, any other value makes the call
    throw a TypeError (the messages are V8's wording). *)
Definition call_toLowerCase (expr : string) (v : value) : outcome string :=
  match v with
  | VStr s => Returned (toLowerCase s)
  | VUndefined =>
      Thrown (TypeError "Cannot read properties of undefined (reading 'toLowerCase')")
  | VNull =>
      Thrown (TypeError "Cannot read properties of null (reading 'toLowerCase')")
  | _ => Thrown (TypeError (expr +:+ ".toLowerCase is not a function"))
  end.

(** [req.query.search.toLowerCase()]: a parameter that is not a string has
    no such method. *)
Definition search_term (x : param) : outcome string :=
  match x with
  | PStr s => Returned (toLowerCase s)
  | _ => Thrown (TypeError "req.query.search.toLowerCase is not a function")
  end.

(** The callback of the search filter. *)
Definition search_callback (searchTerm : string) (p : Product.t) : outcome bool :=
  match call_toLowerCase "p.name" (Product.name p) with
  | Thrown e => Thrown e
  | Returned n =>
      if includes n searchTerm then Returned true
      else match call_toLowerCase "p.description" (Product.description p) with
           | Thrown e => Thrown e
           | Returned d => Returned (includes d searchTerm)
           end
  end.

(** The category filter of the list route: applied when
    [req.query.category] is truthy. *)
Definition filter_by_category (q : Query.t) (result : list Product.t) : list Product.t :=
  match Query.category q with
  | Some c =>
      if truthy_query (Some c)
      then List.filter (fun p => strict_eq_param (Product.category p) c) result
      else result
  | None => result
  end.

(** The search filter of the list route: applied when [req.query.search]
    is truthy. *)
Definition filter_by_search (q : Query.t) (result : list Product.t)
  : outcome (list Product.t) :=
  match Query.search q with
  | Some s =>
      if truthy_query (Some s)
      then match search_term s with
           | Returned searchTerm => filter_throwing (search_callback searchTerm) result
           | Thrown e => Thrown e
           end
      else Returned result
  | None => Returned result
  end.

(** The two filters, in the order the handler applies them. *)
Definition filter_products (q : Query.t) (all : list Product.t) : outcome (list Product.t) :=
  filter_by_search q (filter_by_category q all).

(** [app.get('/api/products')] *)
Definition list_products : layer := fun req ps =>
  let* all := read_products in
  let* result := lift (filter_products (Req.query req) all) in
  let page := parseInt_or (Query.page (Req.query req)) 1 in
  let limit := parseInt_or (Query.limit (Req.query req)) 10 in
  let startIndex := (page - 1) * limit in
  let endIndex := page * limit in
  let paginatedResult := slice result startIndex endIndex in
  ret (Send (json 200
    (JsonPage (Z.of_nat (length result)) page
              (ceil_div (Z.of_nat (length result)) limit) paginatedResult))).

(** [p.id === req.params.id] *)
Definition has_id (i : option string) (p : Product.t) : Prop :=
  Some (Product.id p) = i.

#[global] Instance has_id_dec i p : Decision (has_id i p).
Proof. unfold has_id. apply _. Defined.

(** [app.get('/api/products/:id')] *)
Definition get_product : layer := fun req ps =>
  let* all := read_products in
  match list_find (has_id (params_id ps)) all with
  | None => throw (NotFoundError "Product not found")
  | Some (_, product) => ret (Send (json 200 (JsonProduct product)))
  end.

(** The object literal of the create route; [uuid] is what [uuidv4()]
    returns. *)
Definition newProduct (uuid : string) (b : Body.t) : Product.t :=
  Product.mk uuid
    (Body.name b)
    (JS.or (Body.description b) (VStr ""))
    (Body.price b)
    (JS.or (Body.category b) (VStr "Uncategorized"))
    (match Body.inStock b with VUndefined => VBool true | v => v end).

(** [app.post('/api/products')] *)
Definition create_product (uuid : string) : layer := fun req ps =>
  let* all := read_products in
  write_products (all ++ [newProduct uuid (Req.body req)]) ;;
  ret (Send (json 201 (JsonProduct (newProduct uuid (Req.body req))))).

(** The object literal of the update route: the spread of the old record
    supplies [id], the five other properties are written after it. *)
Definition replacement (old : Product.t) (b : Body.t) : Product.t :=
  Product.mk (Product.id old)
    (Body.name b)
    (JS.or (Body.description b) (Product.description old))
    (Body.price b)
    (JS.or (Body.category b) (Product.category old))
    (match Body.inStock b with VUndefined => Product.inStock old | v => v end).

(** [app.put('/api/products/:id')] *)
Definition update_product : layer := fun req ps =>
  let* all := read_products in
  match list_find (has_id (params_id ps)) all with
  | None => throw (NotFoundError "Product not found")
  | Some (index, old) =>
      write_products (<[index := replacement old (Req.body req)]> all) ;;
      ret (Send (json 200 (JsonProduct (replacement old (Req.body req)))))
  end.

(** [app.delete('/api/products/:id')] *)
Definition delete_product : layer := fun req ps =>
  let* all := read_products in
  match list_find (has_id (params_id ps)) all with
  | None => throw (NotFoundError "Product not found")
  | Some _ =>
      write_products (List.filter (fun p => negb (bool_decide (has_id (params_id ps) p))) all) ;;
      ret (Send (send 204 SendEmpty))
  end.

(** ToString, as applied to a value used as a property key.  An array
    joins its elements with commas, [null] and [undefined] elements giving
    the empty string. *)
Fixpoint ToString (v : value) : string :=
  match v with
  | VUndefined => "undefined"
  | VNull => "null"
  | VBool true => "true"
  | VBool false => "false"
  | VNum n => Number_toString n
  | VStr s => s
  | VArr items =>
      (fix join (l : list value) : string :=
         match l with
         | [] => ""
         | x :: rest =>
             let first :=
               match x with
               | VUndefined | VNull => ""
               | _ => ToString x
               end in
             match rest with
             | [] => first
             | _ => first +:+ "," +:+ join rest
             end
         end) items
  | VObj _ => "[object Object]"
  end.


(** One round of the [forEach] of the statistics: the counter of the
    product's category, read as 0 when the key is new, goes up by one.
    This is what the program does for a key that [Object.prototype] does
    not have.  Under one of the names above the program reads the inherited
    member, not [undefined], and stores a string, or nothing under
    [__proto__]; the statements about the counters are about stores with no
    such category. *)
Definition count_category (categories : gmap string nat) (product : Product.t)
  : gmap string nat :=
  let k := ToString (Product.category product) in
  <[k := (default 0 (categories !! k) + 1)%nat]> categories.

(** [app.get('/api/products/stats')] *)
Definition product_stats : layer := fun req ps =>
  let* all := read_products in
  ret (Send (json 200
    (JsonStats
       (length all)
       (fold_left count_category all ∅)
       (length (List.filter (fun p => truthy (Product.inStock p)) all))
       (length (List.filter (fun p => negb (truthy (Product.inStock p))) all))))).

(** The error-handling middleware. *)
Definition error_handler (err : Failure.t) : response :=
  let statusCode := JS.or (Failure.statusCode err) (num 500) in
  mk_response statusCode
    (JsonError (Failure.message err)
               (JS.or (Failure.name err) (VStr "InternalServerError"))).

Definition products_path : list segment := [Lit "api"; Lit "products"].
Definition product_path : list segment := [Lit "api"; Lit "products"; Param "id"].
Definition stats_path : list segment := [Lit "api"; Lit "products"; Lit "stats"].

(** The routes, in the order [server.js] registers them. *)
Definition routes (uuid : string) : list route :=
  [ mk_route GET [] [hello];
    mk_route GET products_path [list_products];
    mk_route GET product_path [get_product];
    mk_route POST products_path [authenticate; validateProduct; create_product uuid];
    mk_route PUT product_path [authenticate; validateProduct; update_product];
    mk_route DELETE product_path [authenticate; delete_product];
    mk_route GET stats_path [product_stats] ].

(** How a request ends: with the response a handler sent, with the error
    handler's translation of a failure thrown on the way, or, when no
    route answered, with Express's own 404 page. *)
Definition respond (r : outcome step * list Product.t) : response * list Product.t :=
  match r with
  | (Returned (Send r), store') => (r, store')
  | (Returned Next, store') => (mk_response (num 404) FinalHandler, store')
  | (Thrown err, store') => (error_handler err, store')
  end.

(** One request against the store: the logger, then the router.  [req] is
    a request whose body [bodyParser.json()] has parsed. *)
Definition app (uuid : string) (req : Req.t) (store : list Product.t)
  : response * list Product.t :=
  respond (run_chain [logger; fun req _ => dispatch (routes uuid) req] req [] store).

(** The whole stack on a request as it arrives.  [bodyParser.json()] is
    the first middleware: it leaves the parsed body in [req.body] and calls
    [next()], or it hands its failure to the error handler, and then
    neither the logger, nor [authenticate], nor a route runs. *)
Definition serve (uuid : string) (raw : Raw.t) (store : list Product.t)
  : response * list Product.t :=
  match Raw.body raw with
  | Returned b => app uuid (Raw.request raw b) store
  | Thrown err => (error_handler err, store)
  end.

End Server.

(** ** Vocabulary of the statements *)

(** The requests the router hands to the create, update and delete
    routes. *)
Definition is_create (req : Req.t) : Prop :=
  Req.method req = POST /\ is_Some (match_path products_path (Req.path req)).

Definition is_update (req : Req.t) : Prop :=
  Req.method req = PUT /\ is_Some (match_path product_path (Req.path req)).

Definition is_delete (req : Req.t) : Prop :=
  Req.method req = DELETE /\ is_Some (match_path product_path (Req.path req)).

(** The header carries the configured key. *)
Definition authenticated (API_KEY : option string) (req : Req.t) : Prop :=
  truthy_param (Req.x_api_key req) = true /\ Req.x_api_key req = API_KEY.

(** [v > 0] *)
Definition gt0 (v : value) : bool :=
  match v with VNum n => number_gt0 n | _ => false end.

Definition is_string (v : value) : bool :=
  match v with VStr _ => true | _ => false end.

(** [needle] occurs in [s]. *)
Definition substring (needle s : string) : Prop :=
  exists before after, s = before +:+ needle +:+ after.

(** The body fails [validateProduct]'s rules. *)
Definition rejected (b : Body.t) : Prop :=
  truthy (Body.name b) = false \/
  truthy (Body.price b) = false \/
  typeof_number (Body.price b) = false \/
  gt0 (Body.price b) = false.

(** The JSON error body with its status. *)
Definition error_response (code : Z) (message type : string) : response :=
  mk_response (num code) (JsonError (VStr message) (VStr type)).

(** A handler that never calls [next()]: it sends or it throws. *)
Definition answers (h : layer) : Prop :=
  forall req ps st, fst (h req ps st) <> Returned Next.

(** [req.params.id] on the routes of path [/api/products/:id]. *)
Definition requested_id (req : Req.t) : option string :=
  match match_path product_path (Req.path req) with
  | Some ps => params_id ps
  | None => None
  end.

(** A field holds a value. *)
Definition populated (v : value) : Prop := v <> VUndefined.

(** The stores the server can be in: the seed records, and what any
    request leaves behind, where an identifier that [uuidv4()] generates
    is not the [id] of a stored record. *)
Inductive reachable (API_KEY : option string) (Number_toString : number -> string)
    (toLowerCase : string -> string) : list Product.t -> Prop :=
| reachable_start : reachable API_KEY Number_toString toLowerCase products
| reachable_request (st : list Product.t) (uuid : string) (req : Req.t) :
    reachable API_KEY Number_toString toLowerCase st ->
    uuid ∉ Product.id <$> st ->
    reachable API_KEY Number_toString toLowerCase
      (snd (app API_KEY Number_toString toLowerCase uuid req st)).

(** What holds of every record the server stores. *)
Definition sound (p : Product.t) : Prop :=
  truthy (Product.name p) = true /\
  populated (Product.description p) /\
  gt0 (Product.price p) = true /\
  truthy (Product.category p) = true /\
  populated (Product.inStock p).

(** The two properties every request preserves. *)
Definition store_ok (st : list Product.t) : Prop :=
  NoDup (Product.id <$> st) /\ Forall sound st.


(** [name] and [description] are strings. *)
Definition textual (p : Product.t) : Prop :=
  is_string (Product.name p) = true /\ is_string (Product.description p) = true.

(** The requests the router hands to the list route. *)
Definition is_list (req : Req.t) : Prop :=
  Req.method req = GET /\ is_Some (match_path products_path (Req.path req)).


(** The requests the router hands to the single-record route. *)
Definition is_read (req : Req.t) : Prop :=
  Req.method req = GET /\ is_Some (match_path product_path (Req.path req)).

(** The ids of the stored records, in store order. *)
Definition ids (st : list Product.t) : list string := Product.id <$> st.


(** The failures the middlewares and the handlers raise: one of the three
    error classes, each with its status, or a TypeError of the runtime,
    which has none and is answered 500. *)
Definition raised (e : Failure.t) (code : Z) (message type : string) : Prop :=
  (e = NotFoundError message /\ type = "NotFoundError" /\ code = 404) \/
  (e = ValidationError message /\ type = "ValidationError" /\ code = 400) \/
  (e = UnauthorizedError message /\ type = "UnauthorizedError" /\ code = 401) \/
  (e = TypeError message /\ type = "TypeError" /\ code = 500).

(** A layer that leaves the store as it was unless it sends, and that
    throws only the failures above. *)
Definition quiet (h : layer) : Prop :=
  forall req ps st,
    match h req ps st with
    | (Returned (Send _), _) => True
    | (Returned Next, st') => st' = st
    | (Thrown e, st') => st' = st /\ exists code message type, raised e code message type
    end.




(** * Properties *)

(** ** The built-ins *)


Lemma le0_gt0 (v : value) :
  truthy v = true -> typeof_number v = true -> le0 v = negb (gt0 v).
Proof.
  destruct v as [| | |n| | |]; try discriminate.
  destruct n as [|negative|q]; cbn; intros; try discriminate.
  - now destruct negative.
  - now rewrite negb_involutive.
Qed.

Lemma prefix_substring (needle s : string) :
  String.prefix needle s = true <-> exists after, s = needle +:+ after.
Proof.
  revert s. induction needle as [|c needle IH]; intros s.
  - split; [intros _; now exists s | now destruct s].
  - destruct s as [|c' s]; [split; [discriminate | intros [? [=]]]|].
    simpl. destruct (Ascii.ascii_dec c c') as [->|Hne].
    + split.
      * intros H. apply IH in H as [after ->]. now exists after.
      * intros [after [= H]]. apply IH. now exists after.
    + split; [discriminate | intros [after [= E _]]; now subst].
Qed.

Lemma includes_substring (s needle : string) :
  includes s needle = true <-> substring needle s.
Proof.
  unfold substring. induction s as [|c s IH]; cbn [includes].
  - rewrite orb_false_r, prefix_substring. split.
    + intros [after H]. now exists "", after.
    + intros [before [after H]]. destruct before; [now exists after | discriminate].
  - rewrite orb_true_iff, IH, prefix_substring. split.
    + intros [[after H] | [before [after H]]].
      * now exists "", after.
      * exists (String c before), after. cbn. now rewrite H.
    + intros [before [after H]]. destruct before as [|c' before].
      * left. now exists after.
      * right. injection H as _ H. now exists before, after.
Qed.

(** [parseInt] reads no number from a string whose first character is an
    ASCII character that is neither blank, nor a sign, nor a decimal
    digit. *)
Lemma parseInt_not_a_number (c : ascii) (t : string) :
  (nat_of_ascii c < 128)%nat ->
  is_white_space c = false -> c <> "-"%char -> c <> "+"%char ->
  (forall d, digit_value c = Some d -> 10 <= d) ->
  parseInt (Some (PStr (String c t))) = None.
Proof.
  intros Ha Hw Hm Hp Hd. unfold parseInt. cbn [param_to_string trim_start].
  rewrite Hw. apply Nat.ltb_lt in Ha. rewrite Ha.
  destruct c as [[] [] [] [] [] [] [] []];
    try (exfalso; apply Hm; reflexivity); try (exfalso; apply Hp; reflexivity);
    try reflexivity;
    try (exfalso; specialize (Hd _ eq_refl); cbv in Hd; now apply Hd).
Qed.

Example parseInt_examples :
  parseInt None = None /\
  parseInt (Some "abc") = None /\
  parseInt (Some "") = None /\
  parseInt (Some "2") = Some 2 /\
  parseInt (Some " 12px") = Some 12 /\
  parseInt (Some "-3") = Some (-3) /\
  parseInt (Some "0x1f") = Some 31 /\
  parseInt_or (Some "0") 10 = 10 /\
  parseInt_or (Some "abc") 1 = 1.
Proof. repeat split. Qed.

Example slice_examples :
  slice [1; 2; 3; 4; 5] 1 3 = [2; 3] /\
  slice [1; 2; 3; 4; 5] 4 8 = [5] /\
  slice [1; 2; 3; 4; 5] 10 20 = [] /\
  slice [1; 2; 3; 4; 5] (-2) (-1) = [4] /\
  slice [1; 2; 3; 4; 5] 0 (-1) = [1; 2; 3; 4].
Proof. repeat split. Qed.

(** ** Paths *)

Lemma match_products_path (path : list string) (ps : params) :
  match_path products_path path = Some ps -> ps = [].
Proof.
  unfold products_path. destruct path as [|a [|b [|c path]]]; cbn;
    repeat case_match; congruence.
Qed.

Lemma match_product_path (path : list string) (ps : params) :
  match_path product_path path = Some ps ->
  exists i, ps = [("id", i)] /\ i <> "".
Proof.
  unfold product_path.
  destruct path as [|a [|b [|c [|d path]]]]; cbn;
    repeat case_match; try congruence.
  intros [= <-]. exists c. split; [reflexivity|].
  intros ->. discriminate.
Qed.

Lemma requested_id_matched (req : Req.t) (i : string) :
  match_path product_path (Req.path req) = Some [("id", i)] ->
  requested_id req = Some i.
Proof. unfold requested_id. now intros ->. Qed.

(** ** The middlewares *)

Section Middlewares.

Context (API_KEY : option string) (Number_toString : number -> string)
        (toLowerCase : string -> string).

Lemma authenticate_pass (req : Req.t) (ps : params) (st : list Product.t) :
  authenticated API_KEY req ->
  authenticate API_KEY req ps st = (Returned Next, st).
Proof.
  intros [Ht He]. unfold authenticate. rewrite Ht.
  now rewrite bool_decide_eq_false_2 by (intros H; apply H, He).
Qed.

Lemma authenticate_fail (req : Req.t) (ps : params) (st : list Product.t) :
  ~ authenticated API_KEY req ->
  authenticate API_KEY req ps st = (Thrown (UnauthorizedError "Invalid API key"), st).
Proof.
  intros Hn. unfold authenticate, authenticated in *.
  destruct (truthy_param (Req.x_api_key req)); [|reflexivity].
  rewrite bool_decide_eq_true_2; [reflexivity|]. intros He. apply Hn. now split.
Qed.

Lemma validate_pass (req : Req.t) (ps : params) (st : list Product.t) :
  ~ rejected (Req.body req) ->
  validateProduct req ps st = (Returned Next, st).
Proof.
  unfold rejected, validateProduct. intros Hn.
  destruct (truthy (Body.name (Req.body req))) eqn:Hname; [|tauto].
  destruct (truthy (Body.price (Req.body req))) eqn:Hprice; [|tauto].
  destruct (typeof_number (Body.price (Req.body req))) eqn:Htype; [|tauto].
  rewrite le0_gt0 by assumption.
  destruct (gt0 (Body.price (Req.body req))); [reflexivity|tauto].
Qed.

Lemma validate_fail (req : Req.t) (ps : params) (st : list Product.t) :
  rejected (Req.body req) ->
  exists message, validateProduct req ps st = (Thrown (ValidationError message), st).
Proof.
  unfold rejected, validateProduct. intros Hr.
  destruct (truthy (Body.name (Req.body req))) eqn:Hname; [|now eexists].
  destruct (truthy (Body.price (Req.body req))) eqn:Hprice; [|now eexists].
  destruct (typeof_number (Body.price (Req.body req))) eqn:Htype; [|now eexists].
  rewrite le0_gt0 by assumption.
  destruct (gt0 (Body.price (Req.body req))); [|now eexists].
  destruct Hr as [|[|[|]]]; discriminate.
Qed.

(** ** Which chain the router runs *)

Lemma bind_step_id (m : M step) (st : list Product.t) :
  (let* s := m in match s with Next => ret Next | Send r => ret (Send r) end) st = m st.
Proof. unfold bind, ret. destruct (m st) as [[[|r]|e] st']; reflexivity. Qed.

Lemma app_dispatch (uuid : string) (req : Req.t) (st : list Product.t) :
  app API_KEY Number_toString toLowerCase uuid req st =
  respond (dispatch (routes API_KEY Number_toString toLowerCase uuid) req st).
Proof.
  unfold app. cbn [run_chain]. unfold logger, bind at 1, ret at 1. cbv beta iota.
  now rewrite bind_step_id.
Qed.

Lemma dispatch_skip (r : route) (rest : list route) (req : Req.t) :
  route_match r req = None -> dispatch (r :: rest) req = dispatch rest req.
Proof. cbn [dispatch]. now intros ->. Qed.

Lemma dispatch_sends (r : route) (rest : list route) (req : Req.t) (ps : params)
    (st : list Product.t) :
  route_match r req = Some ps ->
  fst (run_chain (route_chain r) req ps st) <> Returned Next ->
  dispatch (r :: rest) req st = run_chain (route_chain r) req ps st.
Proof.
  cbn [dispatch]. intros -> Hn. unfold bind, ret.
  destruct (run_chain _ _ _ _) as [[[|x]|e] st']; try reflexivity. now destruct Hn.
Qed.

Lemma run_chain_answers (chain : list layer) (h : layer) :
  answers h ->
  forall req ps st, fst (run_chain (chain ++ [h]) req ps st) <> Returned Next.
Proof.
  intros Hh req ps. induction chain as [|g chain IH]; intros st; cbn [List.app run_chain].
  - rewrite bind_step_id. apply Hh.
  - unfold bind. destruct (g req ps st) as [[[|r]|e] st']; [apply IH | |]; discriminate.
Qed.

Lemma hello_answers : answers hello.
Proof. intros req ps st. discriminate. Qed.

Lemma list_products_answers : answers (list_products toLowerCase).
Proof.
  intros req ps st. unfold list_products, bind, read_products, lift.
  destruct (filter_products toLowerCase _ _); discriminate.
Qed.

Lemma get_product_answers : answers get_product.
Proof.
  intros req ps st. unfold get_product, bind, read_products.
  destruct (list_find _ _) as [[? ?]|]; discriminate.
Qed.

Lemma create_product_answers (uuid : string) : answers (create_product uuid).
Proof. intros req ps st. discriminate. Qed.

Lemma update_product_answers : answers update_product.
Proof.
  intros req ps st. unfold update_product, bind, read_products.
  destruct (list_find _ _) as [[? ?]|]; discriminate.
Qed.

Lemma delete_product_answers : answers delete_product.
Proof.
  intros req ps st. unfold delete_product, bind, read_products.
  destruct (list_find _ _) as [[? ?]|]; discriminate.
Qed.

Lemma product_stats_answers : answers (product_stats Number_toString).
Proof. intros req ps st. discriminate. Qed.

Lemma app_create (uuid : string) (req : Req.t) (st : list Product.t) :
  is_create req ->
  app API_KEY Number_toString toLowerCase uuid req st =
  respond (run_chain [authenticate API_KEY; validateProduct; create_product uuid] req [] st).
Proof.
  intros [Hm [ps Hp]]. pose proof (match_products_path _ _ Hp) as ->.
  rewrite app_dispatch. unfold routes.
  rewrite !dispatch_skip by (unfold route_match; cbn; now rewrite Hm).
  erewrite dispatch_sends; [reflexivity | |].
  - unfold route_match. cbn. now rewrite Hm.
  - apply (run_chain_answers [_; _]), create_product_answers.
Qed.

Lemma app_update (uuid : string) (req : Req.t) (st : list Product.t) :
  is_update req ->
  exists i, requested_id req = Some i /\ i <> "" /\
    app API_KEY Number_toString toLowerCase uuid req st =
    respond (run_chain [authenticate API_KEY; validateProduct; update_product]
               req [("id", i)] st).
Proof.
  intros [Hm [ps Hp]].
  destruct (match_product_path _ _ Hp) as (i & -> & Hi).
  exists i. split; [now apply requested_id_matched|]. split; [assumption|].
  rewrite app_dispatch. unfold routes.
  rewrite !dispatch_skip by (unfold route_match; cbn; now rewrite Hm).
  erewrite dispatch_sends; [reflexivity | |].
  - unfold route_match. cbn [route_method route_path]. now rewrite Hm.
  - apply (run_chain_answers [_; _]), update_product_answers.
Qed.

Lemma app_delete (uuid : string) (req : Req.t) (st : list Product.t) :
  is_delete req ->
  exists i, requested_id req = Some i /\ i <> "" /\
    app API_KEY Number_toString toLowerCase uuid req st =
    respond (run_chain [authenticate API_KEY; delete_product] req [("id", i)] st).
Proof.
  intros [Hm [ps Hp]].
  destruct (match_product_path _ _ Hp) as (i & -> & Hi).
  exists i. split; [now apply requested_id_matched|]. split; [assumption|].
  rewrite app_dispatch. unfold routes.
  rewrite !dispatch_skip by (unfold route_match; cbn; now rewrite Hm).
  erewrite dispatch_sends; [reflexivity | |].
  - unfold route_match. cbn [route_method route_path]. now rewrite Hm.
  - apply (run_chain_answers [_]), delete_product_answers.
Qed.

End Middlewares.

(** ** What the protected routes answer *)

Section Protected.

Context (API_KEY : option string) (Number_toString : number -> string)
        (toLowerCase : string -> string).

Lemma unauthorized (uuid : string) (req : Req.t) (st : list Product.t) :
  is_create req \/ is_update req \/ is_delete req ->
  ~ authenticated API_KEY req ->
  app API_KEY Number_toString toLowerCase uuid req st =
  (error_response 401 "Invalid API key" "UnauthorizedError", st).
Proof.
  intros Hreq Hn.
  assert (forall ps rest, respond (run_chain (authenticate API_KEY :: rest) req ps st) =
          (error_response 401 "Invalid API key" "UnauthorizedError", st)) as Hchain.
  { intros ps rest. cbn [run_chain]. unfold bind. now rewrite authenticate_fail. }
  destruct Hreq as [Hc | [Hu | Hd]].
  - rewrite app_create by assumption. apply Hchain.
  - destruct (app_update API_KEY Number_toString toLowerCase uuid req st Hu) as (i & _ & _ & ->).
    apply Hchain.
  - destruct (app_delete API_KEY Number_toString toLowerCase uuid req st Hd) as (i & _ & _ & ->).
    apply Hchain.
Qed.

Lemma invalid_body (uuid : string) (req : Req.t) (st : list Product.t) :
  is_create req \/ is_update req ->
  authenticated API_KEY req ->
  rejected (Req.body req) ->
  exists message,
    app API_KEY Number_toString toLowerCase uuid req st =
    (error_response 400 message "ValidationError", st).
Proof.
  intros Hreq Ha Hr.
  assert (forall ps rest, exists message,
            respond (run_chain (authenticate API_KEY :: validateProduct :: rest) req ps st) =
            (error_response 400 message "ValidationError", st)) as Hchain.
  { intros ps rest. destruct (validate_fail req ps st Hr) as [message Hv].
    exists message. cbn [run_chain]. unfold bind.
    now rewrite authenticate_pass, Hv by assumption. }
  destruct Hreq as [Hc | Hu].
  - rewrite app_create by assumption. apply Hchain.
  - destruct (app_update API_KEY Number_toString toLowerCase uuid req st Hu) as (i & _ & _ & ->).
    apply Hchain.
Qed.

Lemma create_accepted (uuid : string) (req : Req.t) (st : list Product.t) :
  is_create req ->
  authenticated API_KEY req ->
  ~ rejected (Req.body req) ->
  app API_KEY Number_toString toLowerCase uuid req st =
  (json 201 (JsonProduct (newProduct uuid (Req.body req))),
   st ++ [newProduct uuid (Req.body req)]).
Proof.
  intros Hc Ha Hv. rewrite app_create by assumption.
  cbn [run_chain]. unfold bind at 1. rewrite authenticate_pass by assumption.
  unfold bind at 1. rewrite validate_pass by assumption. reflexivity.
Qed.

Lemma update_accepted (uuid : string) (req : Req.t) (st : list Product.t) :
  is_update req ->
  authenticated API_KEY req ->
  ~ rejected (Req.body req) ->
  exists i, requested_id req = Some i /\ i <> "" /\
    app API_KEY Number_toString toLowerCase uuid req st =
    match list_find (has_id (Some i)) st with
    | Some (index, old) =>
        (json 200 (JsonProduct (replacement old (Req.body req))),
         <[index := replacement old (Req.body req)]> st)
    | None => (error_response 404 "Product not found" "NotFoundError", st)
    end.
Proof.
  intros Hu Ha Hv.
  destruct (app_update API_KEY Number_toString toLowerCase uuid req st Hu) as (i & Hp & Hi & ->).
  exists i. split; [assumption|]. split; [assumption|].
  cbn [run_chain]. unfold bind at 1. rewrite authenticate_pass by assumption.
  unfold bind at 1. rewrite validate_pass by assumption.
  unfold update_product, bind, read_products. cbn [params_id String.eqb Ascii.eqb Bool.eqb].
  destruct (list_find _ st) as [[index old]|]; reflexivity.
Qed.

Lemma delete_accepted (uuid : string) (req : Req.t) (st : list Product.t) :
  is_delete req ->
  authenticated API_KEY req ->
  exists i, requested_id req = Some i /\ i <> "" /\
    app API_KEY Number_toString toLowerCase uuid req st =
    match list_find (has_id (Some i)) st with
    | Some _ =>
        (send 204 SendEmpty,
         List.filter (fun p => negb (bool_decide (has_id (Some i) p))) st)
    | None => (error_response 404 "Product not found" "NotFoundError", st)
    end.
Proof.
  intros Hd Ha.
  destruct (app_delete API_KEY Number_toString toLowerCase uuid req st Hd) as (i & Hp & Hi & ->).
  exists i. split; [assumption|]. split; [assumption|].
  cbn [run_chain]. unfold bind at 1. rewrite authenticate_pass by assumption.
  unfold delete_product, bind, read_products. cbn [params_id String.eqb Ascii.eqb Bool.eqb].
  destruct (list_find _ st) as [[index old]|]; reflexivity.
Qed.

End Protected.

(** * The claims *)

(** ** Authentication and validation *)









(** ** Rebuilding a record *)

(** C2, as the code has it: an accepted update on an existing id answers
    200 and replaces the record, at its position, by one that keeps the
    [id], takes [name] and [price] from the body, takes [description] and
    [category] from the body when the supplied value is truthy and keeps
    the stored value otherwise, and takes [inStock] from the body unless
    it is [undefined]; and an accepted create, on any store, appends a
    record in which an omitted [description], [category] or [inStock] is
    [""], ["Uncategorized"] or [true]. *)
Theorem update_retains_create_defaults
    (API_KEY : option string) (Number_toString : number -> string)
    (toLowerCase : string -> string)
    (uuid : string) (put post : Req.t) (st : list Product.t) :
  (is_update put -> authenticated API_KEY put -> ~ rejected (Req.body put) ->
   forall index old,
     list_find (has_id (requested_id put)) st = Some (index, old) ->
     exists updated,
       app API_KEY Number_toString toLowerCase uuid put st =
         (json 200 (JsonProduct updated), <[index := updated]> st) /\
       Product.id updated = Product.id old /\
       Product.name updated = Body.name (Req.body put) /\
       Product.price updated = Body.price (Req.body put) /\
       Product.description updated =
         (if truthy (Body.description (Req.body put))
          then Body.description (Req.body put) else Product.description old) /\
       Product.category updated =
         (if truthy (Body.category (Req.body put))
          then Body.category (Req.body put) else Product.category old) /\
       (Body.inStock (Req.body put) <> VUndefined ->
        Product.inStock updated = Body.inStock (Req.body put)) /\
       (Body.inStock (Req.body put) = VUndefined ->
        Product.inStock updated = Product.inStock old)) /\
  (is_create post -> authenticated API_KEY post -> ~ rejected (Req.body post) ->
   exists created,
     app API_KEY Number_toString toLowerCase uuid post st =
       (json 201 (JsonProduct created), st ++ [created]) /\
     Product.id created = uuid /\
     Product.name created = Body.name (Req.body post) /\
     Product.price created = Body.price (Req.body post) /\
     (Body.description (Req.body post) = VUndefined ->
      Product.description created = VStr "") /\
     (Body.category (Req.body post) = VUndefined ->
      Product.category created = VStr "Uncategorized") /\
     (Body.inStock (Req.body post) = VUndefined ->
      Product.inStock created = VBool true)).
Proof.
  split.
  - intros Hu Hau Hvu index old Hfind.
    destruct (update_accepted API_KEY Number_toString toLowerCase uuid put st Hu Hau Hvu)
      as (i & Hi & _ & Happ).
    rewrite Hi in Hfind. rewrite Hfind in Happ.
    exists (replacement old (Req.body put)). split; [exact Happ|].
    cbn. repeat split.
    + now destruct (Body.inStock (Req.body put)).
    + now intros ->.
  - intros Hc Hac Hvc. exists (newProduct uuid (Req.body post)).
    split; [now apply create_accepted|]. cbn.
    repeat split; now intros ->.
Qed.

Lemma update_retains_create_defaults_witness :
  let put := Req.mk PUT ["api"; "products"; "2"] (Some "secret") Query.empty
               (Body.mk (VStr "Chair") VUndefined (num 150) VUndefined (VBool false)) in
  let post := Req.mk POST ["api"; "products"] (Some "secret") Query.empty
                (Body.mk (VStr "Lamp") VUndefined (num 20) VUndefined VUndefined) in
  (exists updated,
     app (Some "secret") (fun _ => "") fold_case "u" put products =
       (json 200 (JsonProduct updated), [laptop; updated]) /\
     Product.category updated = VStr "Furniture" /\
     Product.inStock updated = VBool false) /\
  (exists created,
     app (Some "secret") (fun _ => "") fold_case "u" post [] =
       (json 201 (JsonProduct created), [created]) /\
     Product.category created = VStr "Uncategorized").
Proof.
  intros put post.
  assert (~ rejected (Req.body put)) as Hvu.
  { intros [H | [H | [H | H]]]; vm_compute in H; discriminate. }
  assert (~ rejected (Req.body post)) as Hvc.
  { intros [H | [H | [H | H]]]; vm_compute in H; discriminate. }
  split.
  - destruct (proj1 (update_retains_create_defaults (Some "secret") (fun _ => "") fold_case
                       "u" put post products)
                ltac:(split; [reflexivity | vm_compute; eauto])
                ltac:(split; reflexivity) Hvu 1%nat desk_chair eq_refl)
      as (updated & Happ & _ & _ & _ & _ & Hcat & Hin & _).
    exists updated. split; [exact Happ|]. split; [exact Hcat|].
    apply Hin. discriminate.
  - destruct (proj2 (update_retains_create_defaults (Some "secret") (fun _ => "") fold_case
                       "u" put post [])
                ltac:(split; [reflexivity | vm_compute; eauto])
                ltac:(split; reflexivity) Hvc)
      as (created & Happ & _ & _ & _ & _ & Hcat & _).
    exists created. split; [exact Happ|]. now apply Hcat.
Defined.

(** C2 as stated fails: an update that supplies the empty string as
    [description] leaves the stored description in place. *)
Lemma update_ignores_empty_description :
  let b := Body.mk (VStr "Laptop") (VStr "") (num 1000) VUndefined VUndefined in
  let put := Req.mk PUT ["api"; "products"; "1"] (Some "secret") Query.empty b in
  exists updated,
    app (Some "secret") (fun _ => "") fold_case "u" put products =
      (json 200 (JsonProduct updated), [updated; desk_chair]) /\
    Body.description b = VStr "" /\
    Product.description updated = VStr "High-performance laptop" /\
    Product.description updated <> Body.description b.
Proof.
  eexists. split; [vm_compute; reflexivity|]. repeat split. discriminate.
Qed.

(** ** The invariant of the store *)

Lemma sound_newProduct (uuid : string) (b : Body.t) :
  ~ rejected b -> sound (newProduct uuid b).
Proof.
  unfold rejected, sound, populated. intros Hv. cbn.
  destruct (truthy (Body.name b)) eqn:Hname; [|tauto].
  destruct (gt0 (Body.price b)) eqn:Hprice; [|tauto].
  repeat split.
  - unfold JS.or. destruct (truthy (Body.description b)) eqn:Hd; [|discriminate].
    intros E. now rewrite E in Hd.
  - unfold JS.or. now destruct (truthy (Body.category b)) eqn:Hc.
  - now destruct (Body.inStock b).
Qed.

Lemma sound_replacement (old : Product.t) (b : Body.t) :
  ~ rejected b -> sound old -> sound (replacement old b).
Proof.
  unfold rejected, sound, populated. intros Hv (_ & Hd & _ & Hc & Hs). cbn.
  destruct (truthy (Body.name b)) eqn:Hname; [|tauto].
  destruct (gt0 (Body.price b)) eqn:Hprice; [|tauto].
  repeat split.
  - unfold JS.or. destruct (truthy (Body.description b)) eqn:Hd'; [|assumption].
    intros E. now rewrite E in Hd'.
  - unfold JS.or. now destruct (truthy (Body.category b)) eqn:Hc'.
  - now destruct (Body.inStock b).
Qed.

Lemma ids_filter (f : Product.t -> bool) (st : list Product.t) :
  NoDup (Product.id <$> st) -> NoDup (Product.id <$> List.filter f st).
Proof.
  induction st as [|p st IH]; cbn; [trivial|].
  rewrite NoDup_cons. intros [Hp Hst]. destruct (f p); cbn; [|auto].
  apply NoDup_cons. split; [|auto].
  intros Hin. apply Hp. apply list_elem_of_fmap in Hin as (q & Hq & Hin).
  apply list_elem_of_fmap. exists q. split; [assumption|].
  apply list_elem_of_In. apply list_elem_of_In in Hin.
  now apply filter_In in Hin.
Qed.

Lemma sound_filter (f : Product.t -> bool) (st : list Product.t) :
  Forall sound st -> Forall sound (List.filter f st).
Proof.
  rewrite !Forall_forall. intros H p Hp. apply H.
  apply list_elem_of_In. apply list_elem_of_In in Hp. now apply filter_In in Hp.
Qed.

Lemma ids_replace (st : list Product.t) (index : nat) (old new : Product.t) :
  st !! index = Some old -> Product.id new = Product.id old ->
  Product.id <$> <[index := new]> st = Product.id <$> st.
Proof.
  intros Hl Hid. rewrite list_fmap_insert, Hid. apply list_insert_id.
  now rewrite list_lookup_fmap, Hl.
Qed.

Section Invariant.

Context (API_KEY : option string) (Number_toString : number -> string)
        (toLowerCase : string -> string).

Lemma chain_read_only (h : layer) (req : Req.t) (ps : params) (st : list Product.t) :
  (forall st, snd (h req ps st) = st) -> snd (run_chain [h] req ps st) = st.
Proof.
  intros Hh. cbn [run_chain]. rewrite bind_step_id. apply Hh.
Qed.

Lemma store_ok_create (uuid : string) (req : Req.t) (ps : params) (st : list Product.t) :
  store_ok st -> uuid ∉ Product.id <$> st ->
  store_ok (snd (run_chain [authenticate API_KEY; validateProduct; create_product uuid]
                   req ps st)).
Proof.
  intros [Hids Hsound] Hfresh. cbn [run_chain].
  destruct (decide (authenticated API_KEY req)) as [Ha|Ha];
    [|unfold bind at 1; now rewrite authenticate_fail].
  unfold bind at 1. rewrite authenticate_pass by assumption.
  destruct (decide (rejected (Req.body req))) as [Hr|Hv].
  - destruct (validate_fail req ps st Hr) as [message Hm].
    unfold bind at 1. now rewrite Hm.
  - unfold bind at 1. rewrite validate_pass by assumption. cbn. split.
    + rewrite fmap_app. cbn. apply NoDup_app. split; [assumption|].
      split; [|apply NoDup_singleton].
      intros i Hi Hin. apply list_elem_of_singleton in Hin. now subst.
    + apply Forall_app. split; [assumption|].
      apply Forall_singleton. now apply sound_newProduct.
Qed.

Lemma store_ok_update (req : Req.t) (ps : params) (st : list Product.t) :
  store_ok st ->
  store_ok (snd (run_chain [authenticate API_KEY; validateProduct; update_product]
                   req ps st)).
Proof.
  intros [Hids Hsound]. cbn [run_chain].
  destruct (decide (authenticated API_KEY req)) as [Ha|Ha];
    [|unfold bind at 1; now rewrite authenticate_fail].
  unfold bind at 1. rewrite authenticate_pass by assumption.
  destruct (decide (rejected (Req.body req))) as [Hr|Hv].
  - destruct (validate_fail req ps st Hr) as [message Hm].
    unfold bind at 1. now rewrite Hm.
  - unfold bind at 1. rewrite validate_pass by assumption.
    unfold update_product, bind, read_products.
    destruct (list_find _ st) as [[index old]|] eqn:Hfind; [|now split].
    apply list_find_Some in Hfind as (Hl & _ & _). cbn. split.
    + now rewrite (ids_replace st index old).
    + apply Forall_insert; [assumption|].
      apply sound_replacement; [assumption|].
      now apply (Forall_lookup_1 _ _ _ _ Hsound Hl).
Qed.

Lemma store_ok_delete (req : Req.t) (ps : params) (st : list Product.t) :
  store_ok st ->
  store_ok (snd (run_chain [authenticate API_KEY; delete_product] req ps st)).
Proof.
  intros [Hids Hsound]. cbn [run_chain].
  destruct (decide (authenticated API_KEY req)) as [Ha|Ha];
    [|unfold bind at 1; now rewrite authenticate_fail].
  unfold bind at 1. rewrite authenticate_pass by assumption.
  unfold delete_product, bind, read_products.
  destruct (list_find _ st) as [[index old]|]; [|now split].
  cbn. split; [now apply ids_filter | now apply sound_filter].
Qed.

Lemma store_ok_dispatch (uuid : string) (req : Req.t) (st : list Product.t) :
  store_ok st -> uuid ∉ Product.id <$> st ->
  store_ok (snd (dispatch (routes API_KEY Number_toString toLowerCase uuid) req st)).
Proof.
  intros Hok Hfresh. unfold routes.
  repeat match goal with
  | |- context [dispatch (?r :: ?rest) req st] =>
      destruct (route_match r req) as [ps|] eqn:?;
      [ erewrite dispatch_sends by
          (first [eassumption
                 | apply (run_chain_answers []); auto using hello_answers,
                     list_products_answers, get_product_answers, product_stats_answers
                 | apply (run_chain_answers [_; _]); auto using create_product_answers,
                     update_product_answers
                 | apply (run_chain_answers [_]), delete_product_answers])
      | rewrite dispatch_skip by assumption ]
  end; cbn [route_chain].
  - now rewrite chain_read_only.
  - rewrite chain_read_only; [assumption|].
    intros st'. unfold list_products, bind, read_products, lift.
    now destruct (filter_products toLowerCase _ _).
  - rewrite chain_read_only; [assumption|].
    intros st'. unfold get_product, bind, read_products.
    now destruct (list_find _ _) as [[? ?]|].
  - now apply store_ok_create.
  - now apply store_ok_update.
  - now apply store_ok_delete.
  - now rewrite chain_read_only.
  - assumption.
Qed.

Lemma store_ok_app (uuid : string) (req : Req.t) (st : list Product.t) :
  store_ok st -> uuid ∉ Product.id <$> st ->
  store_ok (snd (app API_KEY Number_toString toLowerCase uuid req st)).
Proof.
  intros Hok Hfresh. rewrite app_dispatch.
  pose proof (store_ok_dispatch uuid req st Hok Hfresh) as H.
  unfold respond. now destruct (dispatch _ req st) as [[[|r]|e] st'].
Qed.

Lemma store_ok_start : store_ok products.
Proof.
  split.
  - cbn. apply NoDup_cons. split; [|apply NoDup_singleton].
    intros H. apply list_elem_of_singleton in H. discriminate.
  - repeat constructor; discriminate.
Qed.

Lemma reachable_store_ok (st : list Product.t) :
  reachable API_KEY Number_toString toLowerCase st -> store_ok st.
Proof.
  induction 1 as [|st uuid req _ IH Hfresh]; [apply store_ok_start|].
  now apply store_ok_app.
Qed.

End Invariant.

(** C7: in every store the server reaches from the two seed records, under
    any sequence of requests in which a generated identifier is not the id
    of a stored record, the ids are pairwise distinct, every price is a
    number greater than zero, and every record has a value in each of
    [name], [description], [price], [category] and [inStock]. *)
Theorem reachable_store_invariant
    (API_KEY : option string) (Number_toString : number -> string)
    (toLowerCase : string -> string)
    (st : list Product.t) :
  reachable API_KEY Number_toString toLowerCase st ->
  NoDup (Product.id <$> st) /\
  Forall (fun p =>
            gt0 (Product.price p) = true /\
            populated (Product.name p) /\
            populated (Product.description p) /\
            populated (Product.price p) /\
            populated (Product.category p) /\
            populated (Product.inStock p)) st.
Proof.
  intros Hr. destruct (reachable_store_ok _ _ _ _ Hr) as [Hids Hsound].
  split; [assumption|].
  eapply Forall_impl; [exact Hsound|].
  intros p (Hn & Hd & Hp & Hc & Hs). unfold populated in *.
  repeat split; try assumption.
  - intros E. now rewrite E in Hn.
  - intros E. now rewrite E in Hp.
  - intros E. now rewrite E in Hc.
Qed.

Lemma reachable_store_invariant_witness :
  let post := Req.mk POST ["api"; "products"] (Some "secret") Query.empty
                (Body.mk (VStr "Lamp") VUndefined (num 20) VUndefined VNull) in
  let st := snd (app (Some "secret") (fun _ => "") fold_case "u" post products) in
  reachable (Some "secret") (fun _ => "") fold_case st /\
  NoDup (Product.id <$> st) /\
  Forall (fun p =>
            gt0 (Product.price p) = true /\
            populated (Product.name p) /\
            populated (Product.description p) /\
            populated (Product.price p) /\
            populated (Product.category p) /\
            populated (Product.inStock p)) st.
Proof.
  intros post st.
  assert (reachable (Some "secret") (fun _ => "") fold_case st) as Hr.
  { apply reachable_request; [apply reachable_start|].
    cbn. intros H. repeat (apply elem_of_cons in H as [H|H]; [discriminate|]).
    inversion H. }
  split; [exact Hr|].
  exact (reachable_store_invariant (Some "secret") (fun _ => "") fold_case st Hr).
Defined.

(** ** The statistics route *)

(** Every path the statistics route accepts is accepted by the route of
    path [/api/products/:id], which is registered before it. *)
Lemma stats_path_is_product_path (path : list string) :
  is_Some (match_path stats_path path) ->
  match_path product_path path = Some [("id", default "" (list.last path))].
Proof.
  unfold stats_path, product_path. intros [ps Hps]. revert Hps.
  destruct path as [|a [|b [|c [|d path]]]]; cbn [match_path];
    repeat match goal with
    | |- context [String.eqb ?x ?y] => destruct (String.eqb x y) eqn:?
    end; try discriminate; try reflexivity.
  match goal with
  | H : String.eqb ?c "" = true |- _ => apply String.eqb_eq in H; subst c
  end.
  discriminate.
Qed.

Lemma stats_request_never_reaches_stats
    (API_KEY : option string) (Number_toString : number -> string)
    (toLowerCase : string -> string)
    (uuid : string) (req : Req.t) (st : list Product.t) :
  Req.method req = GET ->
  is_Some (match_path stats_path (Req.path req)) ->
  app API_KEY Number_toString toLowerCase uuid req st =
  respond (get_product req [("id", default "" (list.last (Req.path req)))] st).
Proof.
  intros Hm Hp. apply stats_path_is_product_path in Hp as Hid.
  rewrite app_dispatch. unfold routes.
  assert (route_match (mk_route GET [] [hello]) req = None) as H1.
  { unfold route_match. cbn. rewrite Hm. cbn.
    destruct (Req.path req); [discriminate | reflexivity]. }
  assert (route_match (mk_route GET products_path [list_products toLowerCase]) req = None) as H2.
  { unfold route_match. cbn [route_method route_path]. rewrite Hm. cbn [method_eqb].
    destruct (match_path products_path (Req.path req)) as [ps|] eqn:E; [|reflexivity].
    exfalso. revert E Hid. unfold products_path, product_path.
    destruct (Req.path req) as [|a [|b [|c path]]]; cbn [match_path];
      repeat match goal with
      | |- context [String.eqb ?x ?y] => destruct (String.eqb x y) eqn:?
      end; discriminate. }
  rewrite !dispatch_skip by assumption.
  erewrite dispatch_sends.
  - cbn [route_chain run_chain]. now rewrite bind_step_id.
  - unfold route_match. cbn [route_method route_path]. now rewrite Hm.
  - apply (run_chain_answers []), get_product_answers.
Qed.

(** C1, on the code: [GET /api/products/stats] is answered by the
    single-record route with the id ["stats"].  On the two seed records the
    answer is 404 NotFoundError, not the statistics; the statistics handler
    itself, which the request does not reach, gives on the seed records
    [totalProducts: 2], [inStock: 2], [outOfStock: 0] and both categories
    mapped to 1. *)
Theorem stats_request_is_read_as_an_id
    (API_KEY : option string) (Number_toString : number -> string)
    (toLowerCase : string -> string)
    (uuid : string) (key : option string) (q : Query.t) (b : Body.t)
    (st : list Product.t) :
  let req := Req.mk GET ["api"; "products"; "stats"] key q b in
  app API_KEY Number_toString toLowerCase uuid req st =
    respond (get_product req [("id", "stats")] st) /\
  app API_KEY Number_toString toLowerCase uuid req products =
    (error_response 404 "Product not found" "NotFoundError", products) /\
  product_stats Number_toString req [] products =
    (Returned (Send (json 200
       (JsonStats 2 {[ "Electronics" := 1%nat; "Furniture" := 1%nat ]} 2 0))),
     products).
Proof.
  intros req. split; [|split].
  - apply (stats_request_never_reaches_stats API_KEY Number_toString toLowerCase uuid req st);
      [reflexivity | vm_compute; eauto].
  - rewrite (stats_request_never_reaches_stats API_KEY Number_toString toLowerCase uuid req
               products);
      [reflexivity | reflexivity | vm_compute; eauto].
  - vm_compute. reflexivity.
Qed.

(** ** The list route *)

Lemma filter_throwing_returned {A} (f : A -> outcome bool) (l r : list A) :
  filter_throwing f l = Returned r ->
  Forall (fun x => exists b, f x = Returned b) l /\
  forall x, x ∈ r <-> x ∈ l /\ f x = Returned true.
Proof.
  revert r. induction l as [|a l IH]; intros r; cbn [filter_throwing].
  - intros [= <-]. split; [constructor|]. intros x. split.
    + intros H. inversion H.
    + intros [H _]. inversion H.
  - destruct (f a) as [keep|e] eqn:Ha; [|discriminate].
    destruct (filter_throwing f l) as [kept|e]; [|discriminate].
    intros [= <-]. destruct (IH kept eq_refl) as [Hall Hmem]. split.
    + constructor; [now exists keep | assumption].
    + intros x. rewrite elem_of_cons. destruct keep.
      * rewrite elem_of_cons, Hmem. split.
        -- intros [-> | [Hx Hfx]]; [now split; [left|] | now split; [right|]].
        -- intros [[-> | Hx] Hfx]; [now left | now right].
      * rewrite Hmem. split.
        -- intros [Hx Hfx]. now split; [right|].
        -- intros [[-> | Hx] Hfx]; [congruence | now split].
Qed.

Lemma filter_throwing_thrown {A} (f : A -> outcome bool) (l : list A) (e : Failure.t) :
  filter_throwing f l = Thrown e -> exists x, x ∈ l /\ f x = Thrown e.
Proof.
  induction l as [|a l IH]; cbn [filter_throwing]; [discriminate|].
  destruct (f a) as [keep|e'] eqn:Ha.
  - destruct (filter_throwing f l) as [kept|e']; [discriminate|].
    intros [= ->]. destruct (IH eq_refl) as (x & Hx & Hfx).
    exists x. split; [now right | assumption].
  - intros [= ->]. exists a. split; [now left | assumption].
Qed.

Lemma filter_throwing_total {A} (f : A -> outcome bool) (l : list A) :
  Forall (fun x => exists b, f x = Returned b) l ->
  exists r, filter_throwing f l = Returned r.
Proof.
  induction 1 as [|a l [b Ha] _ [r IH]]; cbn [filter_throwing]; [now eexists|].
  rewrite Ha, IH. now eexists.
Qed.

Lemma truthy_query_true (x : param) :
  truthy_query (Some x) = true <-> x <> PStr "".
Proof.
  destruct x as [s| |]; cbn; [|split; [discriminate | reflexivity]..].
  rewrite negb_true_iff, String.eqb_neq. split; congruence.
Qed.




Lemma filter_by_category_member (q : Query.t) (st : list Product.t) (p : Product.t) :
  p ∈ filter_by_category q st <->
  p ∈ st /\
  forall x, Query.category q = Some x -> x <> PStr "" ->
            exists c, x = PStr c /\ Product.category p = VStr c.
Proof.
  unfold filter_by_category. destruct (Query.category q) as [x|].
  - destruct (truthy_query (Some x)) eqn:Ht.
    + apply truthy_query_true in Ht.
      rewrite !list_elem_of_In, filter_In. split.
      * intros [Hin Heq]. split; [assumption|]. intros x' [= <-] _.
        destruct x as [c| |]; try discriminate. exists c. split; [reflexivity|].
        cbn in Heq. unfold strict_eq_string in Heq.
        destruct (Product.category p); try discriminate.
        now apply String.eqb_eq in Heq as ->.
      * intros [Hin Heq]. split; [assumption|].
        destruct (Heq x eq_refl Ht) as (c & -> & ->). cbn. apply String.eqb_refl.
    + assert (x = PStr "") as ->.
      { destruct x as [s| |]; try discriminate. cbn in Ht.
        apply negb_false_iff, String.eqb_eq in Ht. now subst. }
      split; [intros H; split; [assumption|] | now intros [H _]].
      intros x' [= <-] Hne. contradiction.
  - split; [intros H; split; [assumption | discriminate] | now intros [H _]].
Qed.

Lemma filter_by_category_sublist (q : Query.t) (st : list Product.t) (P : Product.t -> Prop) :
  Forall P st -> Forall P (filter_by_category q st).
Proof.
  rewrite !Forall_forall. intros H p Hp. apply H.
  now apply filter_by_category_member in Hp as [Hp _].
Qed.

Section Listing.

Context (toLowerCase : string -> string).


Lemma search_callback_thrown (searchTerm : string) (p : Product.t) (e : Failure.t) :
  search_callback toLowerCase searchTerm p = Thrown e ->
  exists message, e = TypeError message.
Proof.
  unfold search_callback, call_toLowerCase.
  destruct (Product.name p); try (intros [= <-]; now eexists).
  destruct (includes _ _); [discriminate|].
  destruct (Product.description p); intros [= <-]; now eexists.
Qed.

Lemma search_callback_returned (searchTerm : string) (p : Product.t) (b : bool) :
  search_callback toLowerCase searchTerm p = Returned b ->
  (b = true <->
   (exists n, Product.name p = VStr n /\ substring searchTerm (toLowerCase n)) \/
   (exists d, Product.description p = VStr d /\ substring searchTerm (toLowerCase d))).
Proof.
  unfold search_callback, call_toLowerCase.
  destruct (Product.name p) as [| | | |n| |]; try discriminate.
  destruct (includes (toLowerCase n) searchTerm) eqn:Hn.
  - intros [= <-]. split; [|trivial]. intros _. left. exists n.
    split; [reflexivity | now apply includes_substring].
  - destruct (Product.description p) as [| | | |d| |]; try discriminate.
    intros [= <-]. split.
    + intros Hd. right. exists d. split; [reflexivity | now apply includes_substring].
    + intros [(n' & [= <-] & Hs) | (d' & [= <-] & Hs)].
      * apply includes_substring in Hs. congruence.
      * now apply includes_substring.
Qed.

Lemma search_callback_textual (searchTerm : string) (p : Product.t) :
  textual p -> exists b, search_callback toLowerCase searchTerm p = Returned b.
Proof.
  unfold textual, search_callback, call_toLowerCase. intros [Hn Hd].
  destruct (Product.name p); try discriminate.
  destruct (Product.description p); try discriminate.
  destruct (includes _ _); now eexists.
Qed.

(** The three ways the search filter goes: skipped, started on a term, or
    failed on a parameter that is not a string. *)
Lemma filter_by_search_cases (q : Query.t) (l : list Product.t) :
  (truthy_query (Query.search q) = false /\
   filter_by_search toLowerCase q l = Returned l) \/
  (exists s, Query.search q = Some (PStr s) /\ s <> "" /\
     filter_by_search toLowerCase q l =
     filter_throwing (search_callback toLowerCase (toLowerCase s)) l) \/
  (exists x, Query.search q = Some x /\ (forall s, x <> PStr s) /\
     filter_by_search toLowerCase q l =
     Thrown (TypeError "req.query.search.toLowerCase is not a function")).
Proof.
  unfold filter_by_search. destruct (Query.search q) as [x|]; [|now left].
  destruct x as [s|items|fields].
  - cbn [truthy_query search_term]. destruct (String.eqb_spec s "") as [->|Hs]; cbn [negb].
    + now left.
    + right. left. now exists s.
  - right. right. exists (PArr items). repeat split. discriminate.
  - right. right. exists (PObj fields). repeat split. discriminate.
Qed.

Lemma filter_products_textual (q : Query.t) (st : list Product.t) :
  Forall textual st ->
  (forall x, Query.search q = Some x -> exists s, x = PStr s) ->
  exists result, filter_products toLowerCase q st = Returned result.
Proof.
  intros Ht Hstring. unfold filter_products.
  destruct (filter_by_search_cases q (filter_by_category q st))
    as [[_ ->] | [(s & _ & _ & ->) | (x & Hx & Hnot & _)]].
  - now eexists.
  - apply filter_throwing_total.
    eapply Forall_impl; [apply filter_by_category_sublist, Ht|].
    intros p Hp. now apply search_callback_textual.
  - destruct (Hstring x Hx) as [s ->]. now destruct (Hnot s).
Qed.

Lemma filter_products_thrown (q : Query.t) (st : list Product.t) (e : Failure.t) :
  filter_products toLowerCase q st = Thrown e -> exists message, e = TypeError message.
Proof.
  unfold filter_products.
  destruct (filter_by_search_cases q (filter_by_category q st))
    as [[_ ->] | [(s & _ & _ & ->) | (x & _ & _ & ->)]].
  - discriminate.
  - intros H. apply filter_throwing_thrown in H as (p & _ & Hp).
    now apply search_callback_thrown in Hp.
  - intros [= <-]. now eexists.
Qed.

Lemma list_products_outcome (req : Req.t) (st : list Product.t) :
  respond (list_products toLowerCase req [] st) =
  match filter_products toLowerCase (Req.query req) st with
  | Returned result =>
      let page := parseInt_or (Query.page (Req.query req)) 1 in
      let limit := parseInt_or (Query.limit (Req.query req)) 10 in
      (json 200
         (JsonPage (Z.of_nat (length result)) page
            (ceil_div (Z.of_nat (length result)) limit)
            (slice result ((page - 1) * limit) (page * limit))), st)
  | Thrown e => (error_handler e, st)
  end.
Proof.
  unfold list_products, bind, read_products, lift.
  now destruct (filter_products toLowerCase _ st).
Qed.

End Listing.

Lemma app_list
    (API_KEY : option string) (Number_toString : number -> string)
    (toLowerCase : string -> string)
    (uuid : string) (req : Req.t) (st : list Product.t) :
  is_list req ->
  app API_KEY Number_toString toLowerCase uuid req st =
  respond (list_products toLowerCase req [] st).
Proof.
  intros [Hm [ps Hp]]. pose proof (match_products_path _ _ Hp) as ->.
  rewrite app_dispatch. unfold routes.
  assert (route_match (mk_route GET [] [hello]) req = None) as H1.
  { unfold route_match. cbn [route_method route_path]. rewrite Hm. cbn [method_eqb].
    revert Hp. unfold products_path. destruct (Req.path req); [discriminate | reflexivity]. }
  rewrite dispatch_skip by assumption.
  erewrite dispatch_sends.
  - cbn [route_chain run_chain]. now rewrite bind_step_id.
  - unfold route_match. cbn [route_method route_path]. now rewrite Hm.
  - apply (run_chain_answers []), list_products_answers.
Qed.

(** C8 as stated fails: a [category] parameter that is supplied with the
    empty string filters nothing, so a record of another category is in
    the filtered sequence.  And a parameter may be supplied more than once:
    a repeated [category] is an array, which is the category of no record,
    and under a repeated [search] there is no filtered sequence, the
    handler throws. *)
Lemma empty_category_filters_nothing :
  let q := Query.mk (Some "") None None None in
  let categories := Query.mk (Some (PArr [PStr "Electronics"; PStr "Furniture"]))
                      None None None in
  let terms := Query.mk None (Some (PArr [PStr "laptop"; PStr "chair"])) None None in
  filter_products fold_case q products = Returned products /\
  laptop ∈ products /\
  Product.category laptop <> VStr "" /\
  filter_products fold_case categories products = Returned [] /\
  filter_products fold_case terms products =
    Thrown (TypeError "req.query.search.toLowerCase is not a function").
Proof.
  split; [reflexivity|]. split; [now left|]. split; [discriminate|].
  split; reflexivity.
Qed.

(** C8, as the code has it: when the filtering of a list request
    completes, a record of the store is in the filtered sequence exactly
    when: the [category] parameter, if one is supplied and is not the empty
    string, is a single string and is the record's category (a repeated or
    bracketed parameter is the category of no record); and the [search]
    parameter, if one is supplied and is not the empty string, is a single
    string whose lowercase form occurs in the lowercased name or in the
    lowercased description of the record.  The filtering completes on
    every store whose names and descriptions are strings, provided the
    [search] parameter is a single string or absent. *)
Theorem filtered_sequence_membership
    (toLowerCase : string -> string) (q : Query.t) (st : list Product.t) :
  (Forall textual st ->
   (forall x, Query.search q = Some x -> exists s, x = PStr s) ->
   exists result, filter_products toLowerCase q st = Returned result) /\
  forall result, filter_products toLowerCase q st = Returned result ->
  forall p, p ∈ st ->
    (p ∈ result <->
     (forall x, Query.category q = Some x -> x <> PStr "" ->
        exists c, x = PStr c /\ Product.category p = VStr c) /\
     (forall x, Query.search q = Some x -> x <> PStr "" ->
        exists s, x = PStr s /\
          ((exists n, Product.name p = VStr n /\
                      substring (toLowerCase s) (toLowerCase n)) \/
           (exists d, Product.description p = VStr d /\
                      substring (toLowerCase s) (toLowerCase d))))).
Proof.
  split; [apply filter_products_textual|].
  intros result Hres p Hp. unfold filter_products in Hres.
  pose proof (filter_by_category_member q st p) as Hcat.
  destruct (filter_by_search_cases toLowerCase q (filter_by_category q st))
    as [[Hfalsy Hskip] | [(s & Hq & Hs & Hrun) | (x & _ & _ & Hfail)]].
  - rewrite Hskip in Hres. injection Hres as <-. rewrite Hcat. split.
    + intros [_ Hc]. split; [assumption|]. intros x Hx Hne.
      rewrite Hx in Hfalsy. apply truthy_query_true in Hne. congruence.
    + intros [Hc _]. now split.
  - rewrite Hrun in Hres. apply filter_throwing_returned in Hres as [Hall Hmem].
    rewrite Hmem, Hcat. split.
    + intros [[_ Hc] Hcb]. split; [assumption|]. intros x Hx _.
      rewrite Hq in Hx. injection Hx as <-. exists s. split; [reflexivity|].
      now apply (search_callback_returned _ _ _ _ Hcb).
    + intros [Hc Hsearch]. assert (p ∈ filter_by_category q st) as Hin
        by (apply Hcat; now split).
      split; [now split|].
      rewrite Forall_forall in Hall. destruct (Hall p Hin) as [b Hb].
      rewrite Hb. f_equal. apply (search_callback_returned _ _ _ _ Hb).
      destruct (Hsearch (PStr s) Hq) as (s' & [= <-] & Hmatch); [congruence|].
      exact Hmatch.
  - rewrite Hfail in Hres. discriminate.
Qed.

Lemma filtered_sequence_membership_witness :
  let q := Query.mk (Some "Furniture") (Some "CHAIR") None None in
  (exists result, filter_products fold_case q products = Returned result) /\
  filter_products fold_case q products = Returned [desk_chair] /\
  (desk_chair ∈ [desk_chair] <->
   (forall x, Query.category q = Some x -> x <> PStr "" ->
      exists c, x = PStr c /\ Product.category desk_chair = VStr c) /\
   (forall x, Query.search q = Some x -> x <> PStr "" ->
      exists s, x = PStr s /\
        ((exists n, Product.name desk_chair = VStr n /\
                    substring (fold_case s) (fold_case n)) \/
         (exists d, Product.description desk_chair = VStr d /\
                    substring (fold_case s) (fold_case d))))).
Proof.
  intros q.
  assert (filter_products fold_case q products = Returned [desk_chair]) as Hres
    by reflexivity.
  destruct (filtered_sequence_membership fold_case q products) as [Htotal Hmember].
  split; [|split; [exact Hres|]].
  - apply Htotal; [repeat constructor|]. intros x [= <-]. now eexists.
  - apply (Hmember [desk_chair] Hres desk_chair). right. now left.
Defined.




(** ** Faults of the search filter *)





(** ** The error handler *)

Section Failures.

Context (API_KEY : option string) (Number_toString : number -> string)
        (toLowerCase : string -> string).

Lemma run_chain_quiet (chain : list layer) :
  Forall quiet chain -> quiet (run_chain chain).
Proof.
  intros Hall req ps. induction Hall as [|h chain Hh _ IH]; intros st; cbn [run_chain].
  - reflexivity.
  - unfold bind. specialize (Hh req ps st).
    destruct (h req ps st) as [[[|r]|e] st1]; [|trivial|assumption].
    subst st1. apply IH.
Qed.

Lemma dispatch_quiet (rs : list route) :
  Forall (fun r => Forall quiet (route_chain r)) rs ->
  quiet (fun req _ => dispatch rs req).
Proof.
  intros Hall req ps0. induction Hall as [|r rs Hr _ IH]; intros st; cbn [dispatch].
  - reflexivity.
  - destruct (route_match r req) as [ps|]; [|apply IH].
    unfold bind. pose proof (run_chain_quiet _ Hr req ps st) as Hc.
    destruct (run_chain (route_chain r) req ps st) as [[[|x]|e] st1]; [|trivial|assumption].
    subst st1. apply IH.
Qed.

Lemma authenticate_quiet : quiet (authenticate API_KEY).
Proof.
  intros req ps st. unfold authenticate.
  destruct (_ || _); cbn; [|reflexivity].
  split; [reflexivity|]. exists 401, "Invalid API key", "UnauthorizedError".
  right. right. left. now repeat split.
Qed.

Lemma validateProduct_quiet : quiet validateProduct.
Proof.
  intros req ps st. unfold validateProduct.
  destruct (_ || _); cbn.
  - split; [reflexivity|]. exists 400, "Name and price are required", "ValidationError".
    right. left. now repeat split.
  - destruct (_ || _); cbn; [|reflexivity].
    split; [reflexivity|].
    exists 400, "Price must be a positive number", "ValidationError".
    right. left. now repeat split.
Qed.

Lemma not_found_raised :
  exists code message type, raised (NotFoundError "Product not found") code message type.
Proof. exists 404, "Product not found", "NotFoundError". left. now repeat split. Qed.

Lemma hello_quiet : quiet hello.
Proof. intros req ps st. exact I. Qed.

Lemma list_products_quiet : quiet (list_products toLowerCase).
Proof.
  intros req ps st. unfold list_products, bind, read_products, lift.
  destruct (filter_products toLowerCase (Req.query req) st) as [result|e] eqn:Hres;
    cbn; [trivial|].
  split; [reflexivity|].
  destruct (filter_products_thrown _ _ _ _ Hres) as [message ->].
  exists 500, message, "TypeError". right. right. right. now repeat split.
Qed.

Lemma get_product_quiet : quiet get_product.
Proof.
  intros req ps st. unfold get_product, bind, read_products.
  destruct (list_find _ st) as [[index p]|]; cbn; [trivial|].
  split; [reflexivity | apply not_found_raised].
Qed.

Lemma create_product_quiet (uuid : string) : quiet (create_product uuid).
Proof. intros req ps st. exact I. Qed.

Lemma update_product_quiet : quiet update_product.
Proof.
  intros req ps st. unfold update_product, bind, read_products.
  destruct (list_find _ st) as [[index p]|]; cbn; [trivial|].
  split; [reflexivity | apply not_found_raised].
Qed.

Lemma delete_product_quiet : quiet delete_product.
Proof.
  intros req ps st. unfold delete_product, bind, read_products.
  destruct (list_find _ st) as [[index p]|]; cbn; [trivial|].
  split; [reflexivity | apply not_found_raised].
Qed.

Lemma product_stats_quiet : quiet (product_stats Number_toString).
Proof. intros req ps st. exact I. Qed.

(** What the router throws is one of the failures the middlewares and
    handlers raise, and the store is then the one before the request. *)
Lemma dispatch_thrown (uuid : string) (req : Req.t) (st st' : list Product.t)
    (e : Failure.t) :
  dispatch (routes API_KEY Number_toString toLowerCase uuid) req st = (Thrown e, st') ->
  st' = st /\ exists code message type, raised e code message type.
Proof.
  intros Hd.
  assert (Forall (fun r => Forall quiet (route_chain r))
            (routes API_KEY Number_toString toLowerCase uuid)) as Hall.
  { unfold routes. repeat constructor;
      auto using authenticate_quiet, validateProduct_quiet, hello_quiet,
        list_products_quiet, get_product_quiet, create_product_quiet,
        update_product_quiet, delete_product_quiet, product_stats_quiet. }
  pose proof (dispatch_quiet _ Hall req [] st) as Hq. cbv beta in Hq.
  now rewrite Hd in Hq.
Qed.

End Failures.

(** C3 as stated fails: the failure the runtime raises in the search
    filter is none of the three classes and is answered 500, but the [type]
    of the body is its own name, ["TypeError"]. *)
Lemma untyped_fault_keeps_its_name :
  let st := products ++ [Product.mk "u" (VStr "Lamp") (num 42) (num 20)
                           (VStr "Uncategorized") (VBool true)] in
  let req := Req.mk GET ["api"; "products"] None
               (Query.mk None (Some "desk") None None)
               (Body.mk VUndefined VUndefined VUndefined VUndefined VUndefined) in
  app None (fun _ => "") fold_case "v" req st =
    (mk_response (num 500)
       (JsonError (VStr "p.description.toLowerCase is not a function")
          (VStr "TypeError")), st) /\
  VStr "TypeError" <> VStr "InternalServerError".
Proof. split; [vm_compute; reflexivity | discriminate]. Qed.

(** C3, as the code has it: every failure that [authenticate],
    [validateProduct] or a route handler raises is answered by the error
    handler with the body [{error: {message, type}}], where [message] and
    [type] are strings, the message and the name of the failure, under the
    status the failure carries: 404 for a NotFoundError, 400 for a
    ValidationError, 401 for an UnauthorizedError; a failure that is none
    of the three is a TypeError of the runtime, which carries no status and
    is answered 500 with the type ["TypeError"].  A body that is not valid
    JSON is answered the same way, 400 with the type ["SyntaxError"].  In
    every case the store is the one before the request. *)
Theorem error_handler_translation
    (API_KEY : option string) (Number_toString : number -> string)
    (toLowerCase : string -> string)
    (uuid : string) (raw : Raw.t) (st : list Product.t) :
  (forall b e st',
     Raw.body raw = Returned b ->
     dispatch (routes API_KEY Number_toString toLowerCase uuid) (Raw.request raw b) st =
       (Thrown e, st') ->
     exists code message type,
       serve API_KEY Number_toString toLowerCase uuid raw st =
         (error_response code message type, st) /\
       st' = st /\
       Failure.message e = VStr message /\
       Failure.name e = VStr type /\
       ((type = "NotFoundError" /\ Failure.statusCode e = num 404 /\ code = 404) \/
        (type = "ValidationError" /\ Failure.statusCode e = num 400 /\ code = 400) \/
        (type = "UnauthorizedError" /\ Failure.statusCode e = num 401 /\ code = 401) \/
        (type = "TypeError" /\ Failure.statusCode e = VUndefined /\ code = 500))) /\
  (forall message,
     Raw.body raw = Thrown (SyntaxError message) ->
     serve API_KEY Number_toString toLowerCase uuid raw st =
       (error_response 400 message "SyntaxError", st)).
Proof.
  unfold serve. split.
  - intros b e st' -> Hd. rewrite app_dispatch, Hd. cbn [respond].
    apply dispatch_thrown in Hd as [-> (code & message & type & Hraised)].
    exists code, message, type.
    destruct Hraised as [(-> & -> & ->) | [(-> & -> & ->) | [(-> & -> & ->) | (-> & -> & ->)]]];
      (split; [reflexivity|]); (split; [reflexivity|]); (split; [reflexivity|]);
      (split; [reflexivity|]); auto 10.
  - now intros message ->.
Qed.

Lemma error_handler_translation_witness :
  let raw := Raw.mk GET ["api"; "products"; "7"] None Query.empty
               (Returned (Body.mk VUndefined VUndefined VUndefined VUndefined
                            VUndefined)) in
  exists code message type,
    serve None (fun _ => "") fold_case "u" raw products =
      (error_response code message type, products) /\
    type = "NotFoundError" /\ code = 404.
Proof.
  intros raw.
  destruct (proj1 (error_handler_translation None (fun _ => "") fold_case "u" raw products)
              (Body.mk VUndefined VUndefined VUndefined VUndefined VUndefined)
              (NotFoundError "Product not found") products eq_refl)
    as (code & message & type & Hserve & _ & _ & Hname & _).
  - vm_compute. reflexivity.
  - exists code, message, type. split; [exact Hserve|].
    injection Hname as <-. split; [reflexivity|].
    rewrite (surjective_pairing (serve None (fun _ => "") fold_case "u" raw products))
      in Hserve.
    vm_compute in Hserve. now injection Hserve as <- _.
Defined.

(** * Further properties of the routes *)

(** ** Reading one record *)

Lemma product_path_excludes (path : list string) (ps : params) :
  match_path product_path path = Some ps ->
  path <> [] /\ match_path products_path path = None.
Proof.
  unfold product_path, products_path.
  destruct path as [|a [|b [|c [|d path]]]]; cbn [match_path];
    repeat match goal with
    | |- context [String.eqb ?x ?y] => destruct (String.eqb x y) eqn:?
    end; try discriminate; intros _; split; try discriminate; reflexivity.
Qed.

Section Reading.

Context (API_KEY : option string) (Number_toString : number -> string)
        (toLowerCase : string -> string).

Lemma app_read (uuid : string) (req : Req.t) (st : list Product.t) :
  is_read req ->
  exists i, requested_id req = Some i /\ i <> "" /\
    app API_KEY Number_toString toLowerCase uuid req st =
    match list_find (has_id (Some i)) st with
    | Some (_, p) => (json 200 (JsonProduct p), st)
    | None => (error_response 404 "Product not found" "NotFoundError", st)
    end.
Proof.
  intros [Hm [ps Hp]].
  destruct (product_path_excludes _ _ Hp) as [Hne Hlist].
  destruct (match_product_path _ _ Hp) as (i & -> & Hi).
  exists i. split; [now apply requested_id_matched|]. split; [assumption|].
  rewrite app_dispatch. unfold routes.
  rewrite !dispatch_skip by
    (unfold route_match; cbn [route_method route_path]; rewrite Hm; cbn [method_eqb];
     first [assumption | destruct (Req.path req); [contradiction | reflexivity]]).
  rewrite (dispatch_sends _ _ _ [("id", i)]).
  - cbn [route_chain run_chain]. rewrite bind_step_id.
    unfold get_product, bind, read_products. cbn [params_id String.eqb Ascii.eqb Bool.eqb].
    now destruct (list_find _ st) as [[index p]|].
  - unfold route_match. cbn [route_method route_path]. now rewrite Hm.
  - apply (run_chain_answers []), get_product_answers.
Qed.

End Reading.

Lemma find_by_id (i : string) (st : list Product.t) :
  match list_find (has_id (Some i)) st with
  | Some (index, p) =>
      st !! index = Some p /\ Product.id p = i /\
      forall j q, st !! j = Some q -> (j < index)%nat -> Product.id q <> i
  | None => i ∉ ids st
  end.
Proof.
  destruct (list_find _ st) as [[index p]|] eqn:Hfind.
  - apply list_find_Some in Hfind as (Hl & Hp & Hfirst).
    split; [assumption|]. split; [now injection Hp|].
    intros j q Hq Hj Hid. apply (Hfirst j q Hq Hj). unfold has_id. now rewrite Hid.
  - rewrite list_find_None, Forall_forall in Hfind.
    intros Hin. apply list_elem_of_fmap in Hin as (q & -> & Hq).
    now apply (Hfind q Hq).
Qed.

Lemma read_absent
    (API_KEY : option string) (Number_toString : number -> string)
    (toLowerCase : string -> string)
    (uuid : string) (req : Req.t) (st : list Product.t) (i : string) :
  is_read req -> requested_id req = Some i -> i ∉ ids st ->
  app API_KEY Number_toString toLowerCase uuid req st =
  (error_response 404 "Product not found" "NotFoundError", st).
Proof.
  intros Hread Hi Hin.
  destruct (app_read API_KEY Number_toString toLowerCase uuid req st Hread) as (i' & Hi' & _ & ->).
  rewrite Hi in Hi'. injection Hi' as <-.
  pose proof (find_by_id i st) as Hfind.
  destruct (list_find (has_id (Some i)) st) as [[index p]|]; [|reflexivity].
  destruct Hfind as (Hl & Hid & _). exfalso. apply Hin. unfold ids. rewrite <- Hid.
  apply list_elem_of_fmap. exists p. split; [reflexivity|].
  now apply list_elem_of_lookup_2 with index.
Qed.



(** ** Writes followed by reads *)

Lemma find_appended (u : string) (st : list Product.t) (new : Product.t) :
  u ∉ ids st -> Product.id new = u ->
  list_find (has_id (Some u)) (st ++ [new]) = Some (length st, new).
Proof.
  intros Hfresh Hid. apply list_find_Some. split; [|split].
  - rewrite lookup_app_r by lia. now rewrite Nat.sub_diag.
  - unfold has_id. now rewrite Hid.
  - intros j q Hq Hj Hhas. apply Hfresh. unfold has_id in Hhas. injection Hhas as <-.
    rewrite lookup_app_l in Hq by assumption.
    apply list_elem_of_fmap. exists q. split; [reflexivity|].
    now apply list_elem_of_lookup_2 with j.
Qed.

Lemma find_replaced (i : string) (st : list Product.t) (index : nat)
    (old new : Product.t) :
  list_find (has_id (Some i)) st = Some (index, old) ->
  Product.id new = Product.id old ->
  list_find (has_id (Some i)) (<[index := new]> st) = Some (index, new).
Proof.
  intros Hfind Hid. apply list_find_Some in Hfind as (Hl & Hp & Hfirst).
  apply list_find_Some. split; [|split].
  - apply list_lookup_insert_eq. now apply lookup_lt_Some with old.
  - unfold has_id in *. now rewrite Hid.
  - intros j q Hq Hj. rewrite list_lookup_insert_ne in Hq by lia. now apply (Hfirst j).
Qed.

Lemma replacement_twice (old : Product.t) (b : Body.t) :
  replacement (replacement old b) b = replacement old b.
Proof.
  unfold replacement. cbn. f_equal.
  - unfold JS.or. now destruct (truthy (Body.description b)).
  - unfold JS.or. now destruct (truthy (Body.category b)).
  - now destruct (Body.inStock b).
Qed.

Section Writing.

Context (API_KEY : option string) (Number_toString : number -> string)
        (toLowerCase : string -> string).

(** What an update request does to the store: nothing, or the replacement
    of the first record that has the requested id. *)
Lemma update_cases (uuid : string) (put : Req.t) (st : list Product.t) :
  is_update put ->
  snd (app API_KEY Number_toString toLowerCase uuid put st) = st \/
  exists i index old,
    requested_id put = Some i /\
    authenticated API_KEY put /\ ~ rejected (Req.body put) /\
    list_find (has_id (Some i)) st = Some (index, old) /\
    app API_KEY Number_toString toLowerCase uuid put st =
      (json 200 (JsonProduct (replacement old (Req.body put))),
       <[index := replacement old (Req.body put)]> st).
Proof.
  intros Hu.
  destruct (decide (authenticated API_KEY put)) as [Ha|Ha];
    [|left; rewrite unauthorized; auto].
  destruct (decide (rejected (Req.body put))) as [Hr|Hv].
  { left. destruct (invalid_body API_KEY Number_toString toLowerCase uuid put st)
      as [message ->]; auto. }
  destruct (update_accepted API_KEY Number_toString toLowerCase uuid put st Hu Ha Hv)
    as (i & Hi & _ & Happ).
  destruct (list_find (has_id (Some i)) st) as [[index old]|] eqn:Hfind.
  - right. now exists i, index, old.
  - left. now rewrite Happ.
Qed.

End Writing.

(** X2: after an accepted create whose generated id is not yet in the
    store, a GET on that id is answered 200 with exactly the record the
    create returned. *)
Theorem created_record_is_read_back
    (API_KEY : option string) (Number_toString : number -> string)
    (toLowerCase : string -> string)
    (uuid uuid' : string) (post get : Req.t) (st : list Product.t) :
  is_create post -> authenticated API_KEY post -> ~ rejected (Req.body post) ->
  uuid ∉ ids st ->
  is_read get -> requested_id get = Some uuid ->
  exists created,
    app API_KEY Number_toString toLowerCase uuid post st =
      (json 201 (JsonProduct created), st ++ [created]) /\
    app API_KEY Number_toString toLowerCase uuid' get (st ++ [created]) =
      (json 200 (JsonProduct created), st ++ [created]).
Proof.
  intros Hc Ha Hv Hfresh Hread Hid.
  exists (newProduct uuid (Req.body post)). split; [now apply create_accepted|].
  destruct (app_read API_KEY Number_toString toLowerCase uuid' get
              (st ++ [newProduct uuid (Req.body post)]) Hread) as (i & Hi & _ & ->).
  rewrite Hid in Hi. injection Hi as <-.
  now rewrite (find_appended uuid st (newProduct uuid (Req.body post)) Hfresh eq_refl).
Qed.

Lemma created_record_is_read_back_witness :
  let post := Req.mk POST ["api"; "products"] (Some "secret") Query.empty
                (Body.mk (VStr "Lamp") VUndefined (num 20) VUndefined VUndefined) in
  let get := Req.mk GET ["api"; "products"; "u-1"] None Query.empty
               (Body.mk VUndefined VUndefined VUndefined VUndefined VUndefined) in
  exists created,
    app (Some "secret") (fun _ => "") fold_case "u-1" post products =
      (json 201 (JsonProduct created), products ++ [created]) /\
    app (Some "secret") (fun _ => "") fold_case "u-2" get (products ++ [created]) =
      (json 200 (JsonProduct created), products ++ [created]).
Proof.
  intros post get.
  apply (created_record_is_read_back (Some "secret") (fun _ => "") fold_case "u-1" "u-2"
           post get products).
  - split; [reflexivity | vm_compute; eauto].
  - split; reflexivity.
  - intros [H | [H | [H | H]]]; vm_compute in H; discriminate.
  - unfold ids. cbn. intros H.
    repeat (apply elem_of_cons in H as [H|H]; [discriminate|]). inversion H.
  - split; [reflexivity | vm_compute; eauto].
  - reflexivity.
Defined.

(** X3: after an accepted update of an existing id, a GET on that id is
    answered 200 with exactly the record the update returned. *)
Theorem updated_record_is_read_back
    (API_KEY : option string) (Number_toString : number -> string)
    (toLowerCase : string -> string)
    (uuid uuid' : string) (put get : Req.t) (st : list Product.t) (i : string) :
  is_update put -> authenticated API_KEY put -> ~ rejected (Req.body put) ->
  requested_id put = Some i -> i ∈ ids st ->
  is_read get -> requested_id get = Some i ->
  exists updated st',
    app API_KEY Number_toString toLowerCase uuid put st = (json 200 (JsonProduct updated), st') /\
    app API_KEY Number_toString toLowerCase uuid' get st' = (json 200 (JsonProduct updated), st').
Proof.
  intros Hu Ha Hv Hi Hin Hread Hget.
  destruct (update_accepted API_KEY Number_toString toLowerCase uuid put st Hu Ha Hv)
    as (i' & Hi' & _ & Happ).
  rewrite Hi in Hi'. injection Hi' as <-.
  pose proof (find_by_id i st) as Hfind.
  destruct (list_find (has_id (Some i)) st) as [[index old]|] eqn:Hf; [|contradiction].
  exists (replacement old (Req.body put)), (<[index := replacement old (Req.body put)]> st).
  split; [exact Happ|].
  destruct (app_read API_KEY Number_toString toLowerCase uuid' get
              (<[index := replacement old (Req.body put)]> st) Hread) as (j & Hj & _ & ->).
  rewrite Hget in Hj. injection Hj as <-.
  now rewrite (find_replaced i st index old (replacement old (Req.body put)) Hf eq_refl).
Qed.

Lemma updated_record_is_read_back_witness :
  let put := Req.mk PUT ["api"; "products"; "1"] (Some "secret") Query.empty
               (Body.mk (VStr "Notebook") VUndefined (num 800) VUndefined VUndefined) in
  let get := Req.mk GET ["api"; "products"; "1"] None Query.empty
               (Body.mk VUndefined VUndefined VUndefined VUndefined VUndefined) in
  exists updated st',
    app (Some "secret") (fun _ => "") fold_case "u" put products =
      (json 200 (JsonProduct updated), st') /\
    app (Some "secret") (fun _ => "") fold_case "v" get st' = (json 200 (JsonProduct updated), st').
Proof.
  intros put get.
  apply (updated_record_is_read_back (Some "secret") (fun _ => "") fold_case "u" "v"
           put get products "1").
  - split; [reflexivity | vm_compute; eauto].
  - split; reflexivity.
  - intros [H | [H | [H | H]]]; vm_compute in H; discriminate.
  - reflexivity.
  - unfold ids. cbn. now left.
  - split; [reflexivity | vm_compute; eauto].
  - reflexivity.
Defined.

(** X4: an update request is idempotent: sent a second time, it gets the
    answer it got the first time and leaves the store the first one left. *)
Theorem update_twice_is_update_once
    (API_KEY : option string) (Number_toString : number -> string)
    (toLowerCase : string -> string)
    (uuid uuid' : string) (put : Req.t) (st : list Product.t) :
  is_update put ->
  app API_KEY Number_toString toLowerCase uuid' put
    (snd (app API_KEY Number_toString toLowerCase uuid put st)) =
  app API_KEY Number_toString toLowerCase uuid put st.
Proof.
  intros Hu.
  assert (forall st0, app API_KEY Number_toString toLowerCase uuid' put st0 =
                      app API_KEY Number_toString toLowerCase uuid put st0) as Huuid.
  { intros st0.
    destruct (app_update API_KEY Number_toString toLowerCase uuid put st0 Hu) as (i & Hi & _ & ->).
    destruct (app_update API_KEY Number_toString toLowerCase uuid' put st0 Hu)
      as (i' & Hi' & _ & ->).
    rewrite Hi in Hi'. now injection Hi' as <-. }
  rewrite Huuid.
  destruct (update_cases API_KEY Number_toString toLowerCase uuid put st Hu)
    as [Hsame | (i & index & old & Hi & Ha & Hv & Hfind & Happ)].
  - now rewrite Hsame.
  - rewrite Happ. cbn [snd].
    destruct (update_accepted API_KEY Number_toString toLowerCase uuid put
                (<[index := replacement old (Req.body put)]> st) Hu Ha Hv)
      as (i' & Hi' & _ & ->).
    rewrite Hi in Hi'. injection Hi' as <-.
    rewrite (find_replaced i st index old (replacement old (Req.body put)) Hfind eq_refl).
    now rewrite replacement_twice, list_insert_insert_eq.
Qed.

Lemma update_twice_is_update_once_witness :
  let put := Req.mk PUT ["api"; "products"; "1"] (Some "secret") Query.empty
               (Body.mk (VStr "Notebook") VUndefined (num 800) VUndefined (VBool false)) in
  app (Some "secret") (fun _ => "") fold_case "v" put
    (snd (app (Some "secret") (fun _ => "") fold_case "u" put products)) =
  app (Some "secret") (fun _ => "") fold_case "u" put products.
Proof.
  intros put.
  apply (update_twice_is_update_once (Some "secret") (fun _ => "") fold_case "u" "v" put products).
  split; [reflexivity | vm_compute; eauto].
Defined.



(** ** Deleting *)

Lemma filter_out_member (i : string) (st : list Product.t) (p : Product.t) :
  p ∈ List.filter (fun p => negb (bool_decide (has_id (Some i) p))) st <->
  p ∈ st /\ Product.id p <> i.
Proof.
  rewrite !list_elem_of_In, filter_In, negb_true_iff, bool_decide_eq_false.
  unfold has_id. split; intros [Hin Hne]; (split; [assumption|]); congruence.
Qed.

Lemma filter_out_ids (i : string) (st : list Product.t) :
  i ∉ ids (List.filter (fun p => negb (bool_decide (has_id (Some i) p))) st).
Proof.
  intros Hin. apply list_elem_of_fmap in Hin as (p & Hi & Hp).
  apply filter_out_member in Hp as [_ Hne]. now apply Hne.
Qed.

Lemma filter_out_sublist (i : string) (st : list Product.t) :
  List.filter (fun p => negb (bool_decide (has_id (Some i) p))) st `sublist_of` st.
Proof.
  induction st as [|p st IH]; cbn [List.filter]; [constructor|].
  destruct (negb _); now constructor.
Qed.

Lemma filter_out_absent (i : string) (st : list Product.t) :
  i ∉ ids st ->
  List.filter (fun p => negb (bool_decide (has_id (Some i) p))) st = st.
Proof.
  induction st as [|p st IH]; cbn [List.filter]; [reflexivity|].
  unfold ids. cbn. rewrite not_elem_of_cons. intros [Hne Hrest].
  rewrite bool_decide_eq_false_2 by (unfold has_id; congruence).
  cbn. f_equal. now apply IH.
Qed.

Lemma filter_out_one (i : string) (st : list Product.t) :
  NoDup (ids st) -> i ∈ ids st ->
  length st = S (length (List.filter (fun p => negb (bool_decide (has_id (Some i) p))) st)).
Proof.
  induction st as [|p st IH]; unfold ids; cbn [fmap list_fmap List.filter].
  - intros _ Hin. inversion Hin.
  - rewrite NoDup_cons, elem_of_cons. intros [Hp Hnd] Hin.
    destruct (decide (Product.id p = i)) as [Hid|Hne].
    + rewrite bool_decide_eq_true_2 by (unfold has_id; congruence). cbn [negb length].
      f_equal. rewrite filter_out_absent; [reflexivity|]. unfold ids. now rewrite <- Hid.
    + rewrite bool_decide_eq_false_2 by (unfold has_id; congruence). cbn [negb length].
      f_equal. apply IH; [assumption|]. destruct Hin as [Hin|Hin]; [congruence | assumption].
Qed.

Section Deleting.

Context (API_KEY : option string) (Number_toString : number -> string)
        (toLowerCase : string -> string).

Lemma delete_present (uuid : string) (del : Req.t) (st : list Product.t) (i : string) :
  is_delete del -> authenticated API_KEY del ->
  requested_id del = Some i -> i ∈ ids st ->
  app API_KEY Number_toString toLowerCase uuid del st =
  (send 204 SendEmpty,
   List.filter (fun p => negb (bool_decide (has_id (Some i) p))) st).
Proof.
  intros Hd Ha Hi Hin.
  destruct (delete_accepted API_KEY Number_toString toLowerCase uuid del st Hd Ha)
    as (i' & Hi' & _ & ->).
  rewrite Hi in Hi'. injection Hi' as <-.
  pose proof (find_by_id i st) as Hfind.
  now destruct (list_find (has_id (Some i)) st) as [[index old]|].
Qed.

Lemma delete_absent (uuid : string) (del : Req.t) (st : list Product.t) (i : string) :
  is_delete del -> authenticated API_KEY del ->
  requested_id del = Some i -> i ∉ ids st ->
  app API_KEY Number_toString toLowerCase uuid del st =
  (error_response 404 "Product not found" "NotFoundError", st).
Proof.
  intros Hd Ha Hi Hin.
  destruct (delete_accepted API_KEY Number_toString toLowerCase uuid del st Hd Ha)
    as (i' & Hi' & _ & ->).
  rewrite Hi in Hi'. injection Hi' as <-.
  pose proof (find_by_id i st) as Hfind.
  destruct (list_find (has_id (Some i)) st) as [[index old]|]; [|reflexivity].
  destruct Hfind as (Hl & Hid & _). exfalso. apply Hin. unfold ids. rewrite <- Hid.
  apply list_elem_of_fmap. exists old. split; [reflexivity|].
  now apply list_elem_of_lookup_2 with index.
Qed.

End Deleting.

(** X6: an authenticated delete of an id that is in the store is answered
    204 with no body; it removes every record that has the id and keeps
    the other records, in their order. *)
Theorem delete_removes_the_id
    (API_KEY : option string) (Number_toString : number -> string)
    (toLowerCase : string -> string)
    (uuid : string) (del : Req.t) (st : list Product.t) (i : string) :
  is_delete del -> authenticated API_KEY del ->
  requested_id del = Some i -> i ∈ ids st ->
  exists st',
    app API_KEY Number_toString toLowerCase uuid del st = (send 204 SendEmpty, st') /\
    (i ∉ ids st') /\
    (st' `sublist_of` st) /\
    forall p, p ∈ st' <-> p ∈ st /\ Product.id p <> i.
Proof.
  intros Hd Ha Hi Hin.
  exists (List.filter (fun p => negb (bool_decide (has_id (Some i) p))) st).
  split; [now apply delete_present|].
  split; [apply filter_out_ids|].
  split; [apply filter_out_sublist | apply filter_out_member].
Qed.

Lemma delete_removes_the_id_witness :
  let del := Req.mk DELETE ["api"; "products"; "1"] (Some "secret") Query.empty
               (Body.mk VUndefined VUndefined VUndefined VUndefined VUndefined) in
  exists st',
    app (Some "secret") (fun _ => "") fold_case "u" del products = (send 204 SendEmpty, st') /\
    ("1" ∉ ids st') /\
    (st' `sublist_of` products) /\
    forall p, p ∈ st' <-> p ∈ products /\ Product.id p <> "1".
Proof.
  intros del.
  apply (delete_removes_the_id (Some "secret") (fun _ => "") fold_case "u" del products "1").
  - split; [reflexivity | vm_compute; eauto].
  - split; reflexivity.
  - reflexivity.
  - unfold ids. cbn. now left.
Defined.

(** X7: once an id has been deleted, a second delete of it and a GET on it
    are both answered 404 NotFoundError. *)
Theorem deleted_id_is_not_found
    (API_KEY : option string) (Number_toString : number -> string)
    (toLowerCase : string -> string)
    (uuid uuid' : string) (del get : Req.t) (st : list Product.t) (i : string) :
  is_delete del -> authenticated API_KEY del ->
  requested_id del = Some i -> i ∈ ids st ->
  is_read get -> requested_id get = Some i ->
  exists st',
    app API_KEY Number_toString toLowerCase uuid del st = (send 204 SendEmpty, st') /\
    app API_KEY Number_toString toLowerCase uuid' del st' =
      (error_response 404 "Product not found" "NotFoundError", st') /\
    app API_KEY Number_toString toLowerCase uuid' get st' =
      (error_response 404 "Product not found" "NotFoundError", st').
Proof.
  intros Hd Ha Hi Hin Hread Hget.
  exists (List.filter (fun p => negb (bool_decide (has_id (Some i) p))) st).
  split; [now apply delete_present|]. split.
  - apply delete_absent with i; try assumption. apply filter_out_ids.
  - apply read_absent with i; try assumption. apply filter_out_ids.
Qed.

Lemma deleted_id_is_not_found_witness :
  let b := Body.mk VUndefined VUndefined VUndefined VUndefined VUndefined in
  let del := Req.mk DELETE ["api"; "products"; "1"] (Some "secret") Query.empty b in
  let get := Req.mk GET ["api"; "products"; "1"] None Query.empty b in
  exists st',
    app (Some "secret") (fun _ => "") fold_case "u" del products = (send 204 SendEmpty, st') /\
    app (Some "secret") (fun _ => "") fold_case "v" del st' =
      (error_response 404 "Product not found" "NotFoundError", st') /\
    app (Some "secret") (fun _ => "") fold_case "v" get st' =
      (error_response 404 "Product not found" "NotFoundError", st').
Proof.
  intros b del get.
  apply (deleted_id_is_not_found (Some "secret") (fun _ => "") fold_case "u" "v" del get
           products "1").
  - split; [reflexivity | vm_compute; eauto].
  - split; reflexivity.
  - reflexivity.
  - unfold ids. cbn. now left.
  - split; [reflexivity | vm_compute; eauto].
  - reflexivity.
Defined.

(** X8: in a store whose ids are pairwise distinct (every store the server
    reaches is one), an authenticated delete of an id that is present
    removes exactly one record. *)
Theorem delete_removes_one_record
    (API_KEY : option string) (Number_toString : number -> string)
    (toLowerCase : string -> string)
    (uuid : string) (del : Req.t) (st : list Product.t) (i : string) :
  is_delete del -> authenticated API_KEY del ->
  requested_id del = Some i -> i ∈ ids st -> NoDup (ids st) ->
  length st = S (length (snd (app API_KEY Number_toString toLowerCase uuid del st))).
Proof.
  intros Hd Ha Hi Hin Hnd.
  rewrite (delete_present API_KEY Number_toString toLowerCase uuid del st i) by assumption.
  now apply filter_out_one.
Qed.

Lemma delete_removes_one_record_witness :
  let del := Req.mk DELETE ["api"; "products"; "2"] (Some "secret") Query.empty
               (Body.mk VUndefined VUndefined VUndefined VUndefined VUndefined) in
  length products = S (length (snd (app (Some "secret") (fun _ => "") fold_case "u" del products))).
Proof.
  intros del.
  apply (delete_removes_one_record (Some "secret") (fun _ => "") fold_case "u" del products "2").
  - split; [reflexivity | vm_compute; eauto].
  - split; reflexivity.
  - reflexivity.
  - unfold ids. cbn. right. now left.
  - apply (proj1 (store_ok_start)).
Defined.



(** X10: creating a record under a fresh id and then deleting that id gives
    back the store there was before the create. *)
Theorem create_then_delete_restores
    (API_KEY : option string) (Number_toString : number -> string)
    (toLowerCase : string -> string)
    (uuid uuid' : string) (post del : Req.t) (st : list Product.t) :
  is_create post -> authenticated API_KEY post -> ~ rejected (Req.body post) ->
  uuid ∉ ids st ->
  is_delete del -> authenticated API_KEY del -> requested_id del = Some uuid ->
  exists created,
    app API_KEY Number_toString toLowerCase uuid post st =
      (json 201 (JsonProduct created), st ++ [created]) /\
    app API_KEY Number_toString toLowerCase uuid' del (st ++ [created]) = (send 204 SendEmpty, st).
Proof.
  intros Hc Ha Hv Hfresh Hd Had Hid.
  exists (newProduct uuid (Req.body post)). split; [now apply create_accepted|].
  rewrite (delete_present API_KEY Number_toString toLowerCase uuid' del _ uuid); try assumption.
  - rewrite List.filter_app, filter_out_absent by assumption.
    cbn [List.filter newProduct Product.id].
    rewrite bool_decide_eq_true_2 by reflexivity. cbn. now rewrite app_nil_r.
  - unfold ids. rewrite fmap_app. apply elem_of_app. right. cbn. now left.
Qed.

Lemma create_then_delete_restores_witness :
  let post := Req.mk POST ["api"; "products"] (Some "secret") Query.empty
                (Body.mk (VStr "Lamp") VUndefined (num 20) VUndefined VUndefined) in
  let del := Req.mk DELETE ["api"; "products"; "u-1"] (Some "secret") Query.empty
               (Body.mk VUndefined VUndefined VUndefined VUndefined VUndefined) in
  exists created,
    app (Some "secret") (fun _ => "") fold_case "u-1" post products =
      (json 201 (JsonProduct created), products ++ [created]) /\
    app (Some "secret") (fun _ => "") fold_case "u-2" del (products ++ [created]) =
      (send 204 SendEmpty, products).
Proof.
  intros post del.
  apply (create_then_delete_restores (Some "secret") (fun _ => "") fold_case "u-1" "u-2"
           post del products).
  - split; [reflexivity | vm_compute; eauto].
  - split; reflexivity.
  - intros [H | [H | [H | H]]]; vm_compute in H; discriminate.
  - unfold ids. cbn. intros H.
    repeat (apply elem_of_cons in H as [H|H]; [discriminate|]). inversion H.
  - split; [reflexivity | vm_compute; eauto].
  - split; reflexivity.
  - reflexivity.
Defined.

(** ** What can change the store *)

Lemma route_match_Some (m : http_method) (path : list segment) (chain : list layer)
    (req : Req.t) (ps : params) :
  route_match (mk_route m path chain) req = Some ps ->
  Req.method req = m /\ match_path path (Req.path req) = Some ps.
Proof.
  unfold route_match. cbn [route_method route_path].
  destruct m, (Req.method req); cbn [method_eqb]; try discriminate; now split.
Qed.

Section Changes.

Context (API_KEY : option string) (Number_toString : number -> string)
        (toLowerCase : string -> string).

(** A request is a create, an update or a delete, or it leaves the store
    as it was. *)
Lemma reads_leave_store (uuid : string) (req : Req.t) (st : list Product.t) :
  is_create req \/ is_update req \/ is_delete req \/
  snd (app API_KEY Number_toString toLowerCase uuid req st) = st.
Proof.
  rewrite app_dispatch. unfold routes.
  repeat match goal with
  | |- context [dispatch (?r :: ?rest) req st] =>
      destruct (route_match r req) as [ps|] eqn:?;
      [ erewrite dispatch_sends by
          (first [eassumption
                 | apply (run_chain_answers []); auto using hello_answers,
                     list_products_answers, get_product_answers, product_stats_answers
                 | apply (run_chain_answers [_; _]); auto using create_product_answers,
                     update_product_answers
                 | apply (run_chain_answers [_]), delete_product_answers])
      | rewrite dispatch_skip by assumption ]
  end; cbn [route_chain];
  try match goal with
  | H : route_match (mk_route POST _ _) req = Some _ |- _ =>
      apply route_match_Some in H as [? ?]; left; split; [assumption | eauto]
  | H : route_match (mk_route PUT _ _) req = Some _ |- _ =>
      apply route_match_Some in H as [? ?]; right; left; split; [assumption | eauto]
  | H : route_match (mk_route DELETE _ _) req = Some _ |- _ =>
      apply route_match_Some in H as [? ?]; right; right; left;
      split; [assumption | eauto]
  end; right; right; right.
  - cbn [run_chain]. rewrite bind_step_id. reflexivity.
  - cbn [run_chain]. rewrite bind_step_id.
    unfold list_products, bind, read_products, lift.
    now destruct (filter_products toLowerCase _ _).
  - cbn [run_chain]. rewrite bind_step_id.
    unfold get_product, bind, read_products.
    now destruct (list_find _ _) as [[? ?]|].
  - cbn [run_chain]. rewrite bind_step_id. reflexivity.
  - reflexivity.
Qed.

End Changes.

(** X11: the store changes only under an authenticated create that is
    answered 201, an authenticated update that is answered 200 or an
    authenticated delete that is answered 204; every other request, and
    every request that ends in a failure, leaves the store as it was. *)
Theorem only_accepted_writes_change_the_store
    (API_KEY : option string) (Number_toString : number -> string)
    (toLowerCase : string -> string)
    (uuid : string) (req : Req.t) (st : list Product.t) :
  snd (app API_KEY Number_toString toLowerCase uuid req st) = st \/
  (authenticated API_KEY req /\
   ((is_create req /\
     exists p, fst (app API_KEY Number_toString toLowerCase uuid req st) =
               json 201 (JsonProduct p)) \/
    (is_update req /\
     exists p, fst (app API_KEY Number_toString toLowerCase uuid req st) =
               json 200 (JsonProduct p)) \/
    (is_delete req /\
     fst (app API_KEY Number_toString toLowerCase uuid req st) = send 204 SendEmpty))).
Proof.
  destruct (reads_leave_store API_KEY Number_toString toLowerCase uuid req st)
    as [Hc | [Hu | [Hd | Hsame]]]; [| | |now left].
  - destruct (decide (authenticated API_KEY req)) as [Ha|Ha];
      [|left; rewrite unauthorized; auto].
    destruct (decide (rejected (Req.body req))) as [Hr|Hv].
    + left. destruct (invalid_body API_KEY Number_toString toLowerCase uuid req st)
        as [message ->]; auto.
    + right. split; [assumption|]. left. split; [assumption|].
      rewrite create_accepted by assumption. now eexists.
  - destruct (update_cases API_KEY Number_toString toLowerCase uuid req st Hu)
      as [Hsame | (i & index & old & _ & Ha & _ & _ & Happ)]; [now left|].
    right. split; [assumption|]. right. left. split; [assumption|].
    rewrite Happ. now eexists.
  - destruct (decide (authenticated API_KEY req)) as [Ha|Ha];
      [|left; rewrite unauthorized; auto].
    destruct (delete_accepted API_KEY Number_toString toLowerCase uuid req st Hd Ha)
      as (i & _ & _ & Happ).
    destruct (list_find (has_id (Some i)) st) as [[index old]|].
    + right. split; [assumption|]. right. right. split; [assumption|]. now rewrite Happ.
    + left. now rewrite Happ.
Qed.





(** ** Listing *)

Lemma filter_throwing_sublist {A} (f : A -> outcome bool) (l r : list A) :
  filter_throwing f l = Returned r -> r `sublist_of` l.
Proof.
  revert r. induction l as [|a l IH]; intros r; cbn [filter_throwing].
  - intros [= <-]. constructor.
  - destruct (f a) as [keep|e]; [|discriminate].
    destruct (filter_throwing f l) as [kept|e]; [|discriminate].
    intros [= <-]. destruct keep; constructor; now apply IH.
Qed.

Lemma filter_sublist {A} (f : A -> bool) (l : list A) : List.filter f l `sublist_of` l.
Proof.
  induction l as [|a l IH]; cbn [List.filter]; [constructor|].
  destruct (f a); now constructor.
Qed.

Lemma filter_products_sublist
    (toLowerCase : string -> string) (q : Query.t) (st result : list Product.t) :
  filter_products toLowerCase q st = Returned result -> result `sublist_of` st.
Proof.
  unfold filter_products. intros Hres.
  assert (filter_by_category q st `sublist_of` st) as Hcat.
  { unfold filter_by_category. destruct (Query.category q) as [c|]; [|reflexivity].
    destruct (truthy_query (Some c)); [apply filter_sublist | reflexivity]. }
  destruct (filter_by_search_cases toLowerCase q (filter_by_category q st))
    as [[_ H] | [(s & _ & _ & H) | (x & _ & _ & H)]]; rewrite H in Hres.
  - now injection Hres as <-.
  - apply filter_throwing_sublist in Hres. now transitivity (filter_by_category q st).
  - discriminate.
Qed.


Lemma slice_sublist {A} (l : list A) (startIndex endIndex : Z) :
  slice l startIndex endIndex `sublist_of` l.
Proof.
  unfold slice. etransitivity; [apply sublist_take | apply sublist_drop].
Qed.







(** X16: the list route sees a search term only through its lowercased
    form: two list requests that differ only in their non-empty search
    terms, the two terms having the same lowercased form (as two spellings
    that differ in the case of their letters have), get the same answer. *)
Theorem search_term_case_is_ignored
    (API_KEY : option string) (Number_toString : number -> string)
    (toLowerCase : string -> string)
    (uuid : string) (m : http_method) (path : list string) (key : option string)
    (category page limit : option param) (b : Body.t) (s1 s2 : string)
    (st : list Product.t) :
  is_list (Req.mk m path key (Query.mk category (Some (PStr s1)) page limit) b) ->
  s1 <> "" -> s2 <> "" ->
  toLowerCase s1 = toLowerCase s2 ->
  app API_KEY Number_toString toLowerCase uuid
    (Req.mk m path key (Query.mk category (Some (PStr s1)) page limit) b) st =
  app API_KEY Number_toString toLowerCase uuid
    (Req.mk m path key (Query.mk category (Some (PStr s2)) page limit) b) st.
Proof.
  intros Hlist Hs1 Hs2 Hcase.
  assert (is_list (Req.mk m path key (Query.mk category (Some (PStr s2)) page limit) b))
    as Hlist2 by exact Hlist.
  rewrite !app_list, !list_products_outcome by assumption.
  cbn [Req.query Query.page Query.limit].
  assert (filter_products toLowerCase (Query.mk category (Some (PStr s1)) page limit) st =
          filter_products toLowerCase (Query.mk category (Some (PStr s2)) page limit) st)
    as ->; [|reflexivity].
  unfold filter_products, filter_by_search, filter_by_category.
  cbn [Query.search Query.category truthy_query search_term].
  apply String.eqb_neq in Hs1, Hs2. now rewrite Hs1, Hs2, Hcase.
Qed.

Lemma search_term_case_is_ignored_witness :
  let b := Body.mk VUndefined VUndefined VUndefined VUndefined VUndefined in
  app None (fun _ => "") fold_case "u"
    (Req.mk GET ["api"; "products"] None (Query.mk None (Some "CHAIR") None None) b)
    products =
  app None (fun _ => "") fold_case "u"
    (Req.mk GET ["api"; "products"] None (Query.mk None (Some "chair") None None) b)
    products.
Proof.
  intros b.
  apply (search_term_case_is_ignored None (fun _ => "") fold_case "u" GET ["api"; "products"]
           None None None None b "CHAIR" "chair" products).
  - split; [reflexivity | vm_compute; eauto].
  - discriminate.
  - discriminate.
  - reflexivity.
Defined.

(** X17: whatever its query, a list request that is answered 200 returns
    only stored records, in store order and none twice over, and its
    [total] never exceeds the size of the store. *)
Theorem listing_returns_stored_records
    (API_KEY : option string) (Number_toString : number -> string)
    (toLowerCase : string -> string)
    (uuid : string) (req : Req.t) (st : list Product.t)
    (total page totalPages : Z) (data : list Product.t) :
  is_list req ->
  fst (app API_KEY Number_toString toLowerCase uuid req st) =
    json 200 (JsonPage total page totalPages data) ->
  data `sublist_of` st /\ 0 <= total <= Z.of_nat (length st).
Proof.
  intros Hlist. rewrite app_list, list_products_outcome by assumption.
  destruct (filter_products toLowerCase (Req.query req) st) as [result|e] eqn:Hres;
    [|discriminate].
  apply filter_products_sublist in Hres. cbn [fst]. intros [= <- _ _ <-]. split.
  - etransitivity; [apply slice_sublist | exact Hres].
  - apply sublist_length in Hres. lia.
Qed.

Lemma listing_returns_stored_records_witness :
  let req := Req.mk GET ["api"; "products"] None
               (Query.mk None None (Some "-1") (Some "1"))
               (Body.mk VUndefined VUndefined VUndefined VUndefined VUndefined) in
  ([laptop] `sublist_of` products) /\ 0 <= 2 <= Z.of_nat (length products).
Proof.
  intros req.
  apply (listing_returns_stored_records None (fun _ => "") fold_case "u" req products 2 (-1) 2
           [laptop]).
  - split; [reflexivity | vm_compute; eauto].
  - vm_compute. reflexivity.
Defined.

(** ** The statistics handler *)

Section Statistics.

Context (Number_toString : number -> string).






End Statistics.



(** ** The route that is never served *)

(** X19: no request is answered by the statistics handler: whatever the
    method, the path and the store, the server answers as it would with
    the statistics route left out. *)
Theorem statistics_route_is_never_served
    (API_KEY : option string) (Number_toString : number -> string)
    (toLowerCase : string -> string)
    (uuid : string) (req : Req.t) (st : list Product.t) :
  app API_KEY Number_toString toLowerCase uuid req st =
  respond (dispatch (removelast (routes API_KEY Number_toString toLowerCase uuid)) req st).
Proof.
  rewrite app_dispatch. unfold routes. cbn [removelast].
  repeat match goal with
  | |- respond (dispatch (?r :: ?rest) req st) = respond (dispatch (?r :: ?rest') req st) =>
      destruct (route_match r req) as [ps|] eqn:?;
      [ rewrite (dispatch_sends r rest req ps st), (dispatch_sends r rest' req ps st);
        [ reflexivity | assumption | | assumption | ];
        first [ apply (run_chain_answers []); auto using hello_answers,
                  list_products_answers, get_product_answers
              | apply (run_chain_answers [_; _]); auto using create_product_answers,
                  update_product_answers
              | apply (run_chain_answers [_]), delete_product_answers ]
      | rewrite (dispatch_skip r rest), (dispatch_skip r rest') by assumption ]
  end.
  rewrite dispatch_skip; [reflexivity|].
  destruct (route_match (mk_route GET stats_path _) req) as [ps|] eqn:Hstats;
    [|reflexivity].
  apply route_match_Some in Hstats as [Hm Hp].
  assert (is_Some (match_path stats_path (Req.path req))) as Hsome by eauto.
  apply stats_path_is_product_path in Hsome.
  match goal with
  | H : route_match (mk_route GET product_path _) req = None |- _ =>
      unfold route_match in H; cbn [route_method route_path] in H;
      rewrite Hm, Hsome in H; discriminate
  end.
Qed.

(** ** The two validation messages *)


